(** * Row reconstruction of the table text extractor

    A shallow embedding of [ocr_processor.py] (class [TextExtractor]),
    [table_processor.py] (class [TableExtractor]) and the request handler
    of [app.py].

    Numbers.  The recogniser and the detector report coordinates as Python
    floats, which are IEEE 754 binary64 numbers.  They are modelled by the
    primitive floats, which are the same numbers with the same operations:
    every sum, difference and quotient is rounded as Python rounds it, a
    centroid can be infinite or NaN, and a comparison with NaN is false.
    [sum] adds from the left, starting from 0, as CPython does up to
    version 3.11.

    Sorting.  [list.sort] is stable and compares keys with [<] only.  It is
    modelled by a stable insertion sort.  When no key is NaN, [<] orders
    the keys and every stable sort returns the same list
    ([stable_sort_unique]).  With a NaN key
    the list that [list.sort] returns depends on its algorithm; insertion
    sort returns the same list when there are at most two elements, and a
    permutation of it in any case.

    Exceptions.  A Python call either returns a value or raises; this is the
    type [Result].  Code that also mutates the instance is written in a
    state-and-exception monad (the state survives a raised exception). *)

From Stdlib Require Import Floats.
From Stdlib Require Import String Ascii.
From Stdlib Require Import List Bool Arith ZArith QArith Lia.
From Stdlib Require Import Permutation Sorted.
Import ListNotations.

Set Implicit Arguments.
Set Warnings "-inexact-float".

(** ** Exceptions and results *)

Inductive PyError : Type :=
| IndexError
| ZeroDivisionError
| ValueError
| OverflowError
| AttributeError
| NameError
| FileNotFoundError
| Cv2Error.

Inductive Result (A : Type) : Type :=
| Ok (a : A)
| Raise (e : PyError).

Arguments Ok {A} a.
Arguments Raise {A} e.

Definition bind {A B : Type} (m : Result A) (k : A -> Result B) : Result B :=
  match m with
  | Ok a => k a
  | Raise e => Raise e
  end.

Declare Scope result_scope.
Delimit Scope result_scope with result.
Notation "x <- m ;; k" := (bind m (fun x => k))
  (at level 61, m at next level, right associativity) : result_scope.
Open Scope result_scope.

(** A comprehension or a [for] loop whose body may raise: the elements are
    visited left to right and the first exception ends the loop. *)
Fixpoint mapM {A B : Type} (f : A -> Result B) (l : list A) : Result (list B) :=
  match l with
  | [] => Ok []
  | a :: l' => b <- f a ;; bs <- mapM f l' ;; Ok (b :: bs)
  end.

(** [l[i]] for a non-negative index. *)
Definition py_index {A : Type} (l : list A) (i : nat) : Result A :=
  match nth_error l i with
  | Some a => Ok a
  | None => Raise IndexError
  end.

(** ** Numbers *)

(** [sum(l)]: the total starts as the integer 0, which the first addition
    turns into the float 0.0, and the items are added from left to right. *)
Definition py_sum (l : list float) : float := fold_left PrimFloat.add l 0%float.

(** [float(n)] for a length [n]: the nearest float. *)
Definition py_float_of_nat (n : nat) : float :=
  SF2Prim (binary_normalize prec emax (Z.of_nat n) 0 false).

(** [a / n] for a float [a] and a length [n]: true division, which raises
    on [n = 0]; so does [0 / 0] for the integer sum of no items. *)
Definition py_div_len (a : float) (n : nat) : Result float :=
  match n with
  | O => Raise ZeroDivisionError
  | S _ => Ok (a / py_float_of_nat n)%float
  end.

(** [int(x)]: truncation toward zero; NaN and the infinities have no
    integer. *)
Definition py_int (x : float) : Result Z :=
  match Prim2SF x with
  | S754_nan => Raise ValueError
  | S754_infinity _ => Raise OverflowError
  | S754_zero _ => Ok 0%Z
  | S754_finite s m e => Ok (cond_Zopp s (Z.shiftl (Zpos m) e))
  end.


(** [a <= b] as Python evaluates it: false when [a] or [b] is NaN. *)
Definition float_le (a b : float) : Prop := (a <=? b)%float = true.

(** ** [list.sort(key=...)] *)

Section SortByKey.
Variable A : Type.
Variable key : A -> float.

Fixpoint insert_by (x : A) (l : list A) : list A :=
  match l with
  | [] => [x]
  | y :: l' =>
      if (key y <? key x)%float then y :: insert_by x l' else x :: y :: l'
  end.

Fixpoint sort_by (l : list A) : list A :=
  match l with
  | [] => []
  | x :: l' => insert_by x (sort_by l')
  end.
End SortByKey.

(** ** [ocr_processor.TextExtractor] *)

Module OcrProcessor.

Definition Point := list float.
Definition BBox := list Point.

(** The dictionaries built by [organize_text_data]. *)
Record Entry : Type := mkEntry {
  entry_coordinates : BBox;
  entry_text : string
}.

(** The same dictionaries once the keys ['avg_y'] and ['avg_x'] are set. *)
Record Item : Type := mkItem {
  coordinates : BBox;
  text : string;
  avg_y : float;
  avg_x : float
}.

(** Local variables of the grouping loop of [group_text_into_rows]. *)
Record Scan : Type := mkScan {
  rows : list (list string);
  current_row : list Item;
  current_avg_y : float
}.

(** [row_threshold = 10]: an integer, compared with floats as the float
    10.0. *)
Definition row_threshold : float := 10%float.

Section TextExtractor.
(** Pixel arrays and the drawing primitive of OpenCV are external:
    [cv2_line img start stop] is the array after [cv2.line] has drawn the
    segment (green, thickness 2) on it, or the error it raised. *)
Variable Image : Type.
Variable cv2_line : Image -> list Z -> list Z -> Result Image.

(** The instance once [extract_text] has stored its results. *)
Record TextExtractor : Type := mkTextExtractor {
  source_image : Image;
  bounding_boxes : list BBox;
  detected_texts : list string;
  confidence_scores : list float
}.

Definition set_source_image (img : Image) (self : TextExtractor) : TextExtractor :=
  mkTextExtractor img (bounding_boxes self) (detected_texts self)
                  (confidence_scores self).

(** The loop of [draw_bounding_box]: one segment per index [i], from
    [bbox[i]] to [bbox[(i + 1) % len(bbox)]], drawn on [self.source_image]. *)
Fixpoint draw_segments (bbox : list (list Z)) (idxs : list nat)
         (self : TextExtractor) : Result unit * TextExtractor :=
  match idxs with
  | [] => (Ok tt, self)
  | i :: idxs' =>
      match py_index bbox i,
            py_index bbox (Nat.modulo (i + 1) (length bbox)) with
      | Ok start, Ok stop =>
          match cv2_line (source_image self) start stop with
          | Ok img => draw_segments bbox idxs' (set_source_image img self)
          | Raise e => (Raise e, self)
          end
      | Raise e, _ | _, Raise e => (Raise e, self)
      end
  end.

(** [draw_bounding_box]: the local name [bbox] is rebound to a new list of
    integer points, [int] being applied to every coordinate of every point
    before anything is drawn; the argument is left as it was. *)
Definition draw_bounding_box (bbox : BBox) (self : TextExtractor)
  : Result Image * TextExtractor :=
  match mapM (fun point : Point => mapM py_int point) bbox with
  | Raise e => (Raise e, self)
  | Ok bbox =>
      match draw_segments bbox (seq 0 (length bbox)) self with
      | (Ok _, self') => (Ok (source_image self'), self')
      | (Raise e, self') => (Raise e, self')
      end
  end.

(** [annotate_image] *)
Fixpoint annotate_boxes (boxes : list BBox) (self : TextExtractor)
  : Result Image * TextExtractor :=
  match boxes with
  | [] => (Ok (source_image self), self)
  | bbox :: boxes' =>
      match draw_bounding_box bbox self with
      | (Ok _, self') => annotate_boxes boxes' self'
      | (Raise e, self') => (Raise e, self')
      end
  end.

Definition annotate_image (self : TextExtractor) : Result Image * TextExtractor :=
  annotate_boxes (bounding_boxes self) self.

(** [organize_text_data] *)
Definition organize_text_data (self : TextExtractor) : Result (list Entry) :=
  mapM (fun i =>
          c <- py_index (bounding_boxes self) i ;;
          t <- py_index (detected_texts self) i ;;
          Ok (mkEntry c t))
       (seq 0 (length (bounding_boxes self))).

(** The body of the first loop of [group_text_into_rows]. *)
Definition add_centroid (item : Entry) : Result Item :=
  y_coords <- mapM (fun point : Point => py_index point 1)
                   (entry_coordinates item) ;;
  x_coords <- mapM (fun point : Point => py_index point 0)
                   (entry_coordinates item) ;;
  ay <- py_div_len (py_sum y_coords) (length y_coords) ;;
  ax <- py_div_len (py_sum x_coords) (length x_coords) ;;
  Ok (mkItem (entry_coordinates item) (entry_text item) ay ax).

(** A row that is closed: sorted by [avg_x], reduced to its texts. *)
Definition emit_row (row : list Item) : list string :=
  map text (sort_by avg_x row).

(** The body of the grouping loop. *)
Definition scan_step (st : Scan) (item : Item) : Scan :=
  if (abs (avg_y item - current_avg_y st) <? row_threshold)%float
  then mkScan (rows st) (current_row st ++ [item]) (current_avg_y st)
  else mkScan (rows st ++ [emit_row (current_row st)]) [item] (avg_y item).

(** [group_text_into_rows] *)
Definition group_text_into_rows (self : TextExtractor)
  : Result (list (list string)) :=
  ocr_results <- organize_text_data self ;;
  ocr_results <- mapM add_centroid ocr_results ;;
  let ocr_results := sort_by avg_y ocr_results in
  first <- py_index ocr_results 0 ;;
  let st := fold_left scan_step ocr_results (mkScan [] [] (avg_y first)) in
  Ok (match current_row st with
      | [] => rows st
      | _ :: _ => rows st ++ [emit_row (current_row st)]
      end).

(** *** The grouping loop with its history

    The loop keeps of a closed row only the texts.  The traced loop below
    is the same loop, except that a closed row is kept whole: its anchor
    (the value of [current_avg_y] while the row was open) and its items in
    the order of the scan.  [untrace] forgets the added information. *)

Record TracedRow : Type := mkTracedRow {
  anchor : float;
  scanned : list Item
}.

Record TracedScan : Type := mkTracedScan {
  closed_rows : list TracedRow;
  open_row : list Item;
  open_anchor : float
}.

(** The items of a row in the order in which they are emitted. *)
Definition emitted (r : TracedRow) : list Item := sort_by avg_x (scanned r).

(** The cells of a row as returned. *)
Definition row_cells (r : TracedRow) : list string := map text (emitted r).

Definition traced_step (ts : TracedScan) (item : Item) : TracedScan :=
  if (abs (avg_y item - open_anchor ts) <? row_threshold)%float
  then mkTracedScan (closed_rows ts) (open_row ts ++ [item]) (open_anchor ts)
  else mkTracedScan
         (closed_rows ts ++ [mkTracedRow (open_anchor ts) (open_row ts)])
         [item] (avg_y item).

Definition untrace (ts : TracedScan) : Scan :=
  mkScan (map row_cells (closed_rows ts)) (open_row ts) (open_anchor ts).

Definition traced_rows (ts : TracedScan) : list TracedRow :=
  match open_row ts with
  | [] => closed_rows ts
  | _ :: _ => closed_rows ts ++ [mkTracedRow (open_anchor ts) (open_row ts)]
  end.

(** The items with their centroids, sorted by [avg_y]: the list the
    grouping loop runs over. *)
Definition sorted_items (self : TextExtractor) : Result (list Item) :=
  ocr_results <- organize_text_data self ;;
  ocr_results <- mapM add_centroid ocr_results ;;
  Ok (sort_by avg_y ocr_results).

Definition group_rows_traced (self : TextExtractor) : Result (list TracedRow) :=
  ocr_results <- sorted_items self ;;
  first <- py_index ocr_results 0 ;;
  Ok (traced_rows
        (fold_left traced_step ocr_results (mkTracedScan [] [] (avg_y first)))).

End TextExtractor.

End OcrProcessor.

(** ** [table_processor.TableExtractor] *)

Module TableProcessor.

Section TableExtractor.
(** External collaborators.  [predict img] is what [self.detector.predict]
    returns for the array [img]: a list of results, each with its [boxes],
    each box with its [xyxy] tensor (given as [xyxy.tolist()]).
    [cv2_rectangle img p q] is the content of [img] after [cv2.rectangle]
    has drawn on it (green, thickness 2). *)
Variable Image : Type.

Record Box : Type := mkBox { xyxy : list (list float) }.
Record Detection : Type := mkDetection { boxes : list Box }.

Variable predict : Image -> list Detection.
Variable cv2_rectangle : Image -> Z * Z -> Z * Z -> Image.

(** Arrays are objects: [arrays] is the store of the arrays allocated so
    far, an array is referred to by its position in it.  A slice
    [img[y0:y1, x0:x1]] is a view: it names the array and the window, and
    shows whatever is drawn on the array later. *)
Record View : Type := mkView {
  view_base : nat;
  view_rows : Z * Z;
  view_cols : Z * Z
}.

(** The instance.  [detected_tables] is the content of the one list
    created by [__init__]; [source_image] is unset until
    [load_and_predict] has run. *)
Record TableExtractor : Type := mkTableExtractor {
  detected_tables : list View;
  source_image : option nat
}.

(** What a method can read and change: the image files on disk, the
    arrays, and the instance. *)
Record State : Type := mkState {
  files : string -> option Image;
  arrays : list Image;
  self : TableExtractor
}.

Definition M (A : Type) : Type := State -> Result A * State.

Definition ret {A : Type} (a : A) : M A := fun s => (Ok a, s).

Definition lift {A : Type} (r : Result A) : M A := fun s => (r, s).

Definition bindS {A B : Type} (m : M A) (k : A -> M B) : M B :=
  fun s =>
    match m s with
    | (Ok a, s') => k a s'
    | (Raise e, s') => (Raise e, s')
    end.

Declare Scope state_scope.
Notation "x <- m ;; k" := (bindS m (fun x => k))
  (at level 61, m at next level, right associativity) : state_scope.
Notation "' p <- m ;; k" := (bindS m (fun p => k))
  (at level 61, p pattern, m at next level, right associativity) : state_scope.
Notation "m ;; k" := (bindS m (fun _ => k))
  (at level 61, right associativity) : state_scope.
Local Open Scope state_scope.

Fixpoint for_each {A : Type} (l : list A) (body : A -> M unit) : M unit :=
  match l with
  | [] => ret tt
  | a :: l' => body a ;; for_each l' body
  end.

(** Reading the attribute [self.source_image]. *)
Definition get_source_image : M nat :=
  fun s =>
    match source_image (self s) with
    | Some r => (Ok r, s)
    | None => (Raise AttributeError, s)
    end.

(** Reading the attribute [self.detected_tables]: the content of the list
    at this moment. *)
Definition get_detected_tables : M (list View) :=
  fun s => (Ok (detected_tables (self s)), s).

Fixpoint update_at {A : Type} (f : A -> A) (i : nat) (l : list A) : list A :=
  match l, i with
  | [], _ => []
  | a :: l', O => f a :: l'
  | a :: l', S i' => a :: update_at f i' l'
  end.

(** [cv2.rectangle(arr, p, q, ...)]: drawing changes the array in place. *)
Definition draw_rectangle (r : nat) (p q : Z * Z) : M unit :=
  fun s =>
    (Ok tt,
     mkState (files s)
             (update_at (fun img => cv2_rectangle img p q) r (arrays s))
             (self s)).

(** [self.detected_tables.append(v)] *)
Definition append_table (v : View) : M unit :=
  fun s =>
    (Ok tt,
     mkState (files s) (arrays s)
             (mkTableExtractor (detected_tables (self s) ++ [v])
                               (source_image (self s)))).

(** [a, b, c, d = map(int, l)]: the assignment draws four values from the
    iterator and then asks it for a fifth, which must not exist; [int] runs
    on a value when it is drawn, so that its error comes before the error
    of a wrong number of values. *)
Definition unpack4_int (l : list float) : Result (Z * Z * Z * Z) :=
  bind (mapM py_int (firstn 5 l))
       (fun ints =>
          match ints with
          | [a; b; c; d] => Ok (a, b, c, d)
          | _ => Raise ValueError
          end).

(** [load_and_predict].  The files of the model are images: a file that is
    there is one that [cv2.imread] decodes, into a new array, and the
    detector returns on it. *)
Definition load_and_predict (image_path : string) : M (list Detection) :=
  fun s =>
    match files s image_path with
    | None => (Raise FileNotFoundError, s)
    | Some input_image =>
        (Ok (predict input_image),
         mkState (files s)
                 (arrays s ++ [input_image])
                 (mkTableExtractor (detected_tables (self s))
                                   (Some (length (arrays s)))))
    end.

(** The body of the inner loop of [annotate_image]. *)
Definition annotate_box (table_box : Box) : M unit :=
  bbox_coords <- lift (py_index (xyxy table_box) 0) ;;
  ' (x_min, y_min, x_max, y_max) <- lift (unpack4_int bbox_coords) ;;
  img <- get_source_image ;;
  draw_rectangle img (x_min, y_min) (x_max, y_max) ;;
  img <- get_source_image ;;
  append_table (mkView img (y_min, y_max) (x_min, x_max)).

(** [annotate_image] *)
Definition annotate_image (detections : list Detection) : M unit :=
  for_each detections (fun detection =>
    for_each (boxes detection) annotate_box).

(** [save_processed_image]: [cv2.imwrite] stores the array in a file. *)
Definition save_processed_image (save_path : string) : M unit :=
  img <- get_source_image ;;
  fun s =>
    (Ok tt,
     mkState (fun p => if String.eqb p save_path
                       then match nth_error (arrays s) img with
                            | Some a => Some a
                            | None => files s p
                            end
                       else files s p)
             (arrays s) (self s)).

(** [execute].  Python returns the list object [self.detected_tables]
    itself; the value returned here is its content at the moment of the
    return (a later [reset] also empties the list the caller was given). *)
Definition execute (img_path : string) : M (list View) :=
  results <- load_and_predict img_path ;;
  annotate_image results ;;
  save_processed_image "processed_output.png" ;;
  get_detected_tables.

(** [reset] *)
Definition reset : M unit :=
  fun s =>
    (Ok tt,
     mkState (files s) (arrays s)
             (mkTableExtractor [] (source_image (self s)))).

End TableExtractor.

End TableProcessor.

(** * Vocabulary of the properties *)

(** Inputs on which no step of [group_text_into_rows] raises: at least one
    box, a text for every box, at least one point in every box and two
    coordinates in every point.  Nothing is asked of the number of points. *)
Definition well_formed_point (p : OcrProcessor.Point) : bool :=
  (2 <=? length p)%nat.

Definition well_formed_box (b : OcrProcessor.BBox) : bool :=
  match b with
  | [] => false
  | _ :: _ => forallb well_formed_point b
  end.

Definition well_formed_input (Image : Type)
           (self : OcrProcessor.TextExtractor Image) : bool :=
  match OcrProcessor.bounding_boxes self with
  | [] => false
  | _ :: _ =>
      (length (OcrProcessor.bounding_boxes self)
       <=? length (OcrProcessor.detected_texts self))%nat
      && forallb well_formed_box (OcrProcessor.bounding_boxes self)
  end.

(** The test of the grouping loop, [abs(y - a) < row_threshold], as Python
    evaluates it: the difference is rounded, and the test is false when the
    difference is NaN. *)
Definition near (y a : float) : bool :=
  (abs (y - a) <? OcrProcessor.row_threshold)%float.

(** Items whose [avg_y] is a finite number. *)
Definition finite_y (l : list OcrProcessor.Item) : Prop :=
  Forall (fun x => is_finite (OcrProcessor.avg_y x) = true) l.


(** A row of the traced loop is anchored when it has at least one item and
    its anchor is the [avg_y] of the first item the scan put into it. *)
Definition anchored (r : OcrProcessor.TracedRow) : Prop :=
  match OcrProcessor.scanned r with
  | [] => False
  | x :: _ => OcrProcessor.anchor r = OcrProcessor.avg_y x
  end.

(** Every item of a row passes the test of the loop against the anchor. *)
Definition within_threshold (r : OcrProcessor.TracedRow) : Prop :=
  Forall (fun x => near (OcrProcessor.avg_y x) (OcrProcessor.anchor r) = true)
         (OcrProcessor.scanned r).

(** The anchor [b] fails the test of the loop against the anchor [a]. *)
Definition threshold_apart (a b : float) : Prop := near b a = false.

(** What holds of the traced loop after it has gone through [done], when
    the items have finite [avg_y] and come in the order of [avg_y]. *)
Record scan_inv (done : list OcrProcessor.Item)
       (ts : OcrProcessor.TracedScan) : Prop := mkScanInv {
  inv_items :
    concat (map OcrProcessor.scanned (OcrProcessor.closed_rows ts))
    ++ OcrProcessor.open_row ts = done;
  inv_closed : Forall anchored (OcrProcessor.closed_rows ts);
  inv_open :
    anchored (OcrProcessor.mkTracedRow (OcrProcessor.open_anchor ts)
                                       (OcrProcessor.open_row ts));
  inv_near_closed : Forall within_threshold (OcrProcessor.closed_rows ts);
  inv_near_open :
    within_threshold (OcrProcessor.mkTracedRow (OcrProcessor.open_anchor ts)
                                               (OcrProcessor.open_row ts));
  inv_anchors :
    StronglySorted float_le
      (map OcrProcessor.anchor (OcrProcessor.closed_rows ts)
       ++ [OcrProcessor.open_anchor ts]);
  inv_apart :
    Sorted threshold_apart
      (map OcrProcessor.anchor (OcrProcessor.closed_rows ts)
       ++ [OcrProcessor.open_anchor ts])
}.

(** Example inputs: boxes are squares of side 2 around a centre; the image
    plays no part in the grouping and is left trivial. *)
Definition box_at (cx cy : float) : OcrProcessor.BBox :=
  [[cx - 1; cy - 1]; [cx + 1; cy - 1]; [cx + 1; cy + 1]; [cx - 1; cy + 1]]%float.

Definition recognised (boxes : list OcrProcessor.BBox) (texts : list string)
  : OcrProcessor.TextExtractor unit :=
  OcrProcessor.mkTextExtractor tt boxes texts (map (fun _ => 1%float) boxes).

(** Two items one unit apart in [y]. *)
Definition scenario_a : OcrProcessor.TextExtractor unit :=
  recognised [box_at 0 0; box_at 5 1] ["A"; "B"]%string.

(** Two items fifty units apart in [y], the lower one first. *)
Definition scenario_b : OcrProcessor.TextExtractor unit :=
  recognised [box_at 0 50; box_at 0 0] ["low"; "high"]%string.

(** Three items of one row, with x-centroids 30, 10 and 20. *)
Definition scenario_c : OcrProcessor.TextExtractor unit :=
  recognised [box_at 30 0; box_at 10 2; box_at 20 1]
             ["x30"; "x10"; "x20"]%string.

(** One item whose quadrilateral has three points. *)
Definition scenario_d : OcrProcessor.TextExtractor unit :=
  recognised [[[0; 0]; [6; 0]; [6; 3]]%float] ["A"]%string.

(** Two items nine, ten and eleven units apart in [y]. *)
Definition apart (d : float) : OcrProcessor.TextExtractor unit :=
  recognised [box_at 0 0; box_at 0 d] ["top"; "bottom"]%string.






(** The state [s] with the tables [T] put in front of the detected ones. *)
Definition prepend (Image : Type) (T : list TableProcessor.View)
           (s : TableProcessor.State Image) : TableProcessor.State Image :=
  TableProcessor.mkState
    (TableProcessor.files s) (TableProcessor.arrays s)
    (TableProcessor.mkTableExtractor
       (T ++ TableProcessor.detected_tables (TableProcessor.self s))
       (TableProcessor.source_image (TableProcessor.self s))).

(** A computation that neither reads the detected tables nor does more to
    them than append: it runs the same way whatever is in front. *)
Definition blind_to_tables (Image A : Type) (m : TableProcessor.M Image A)
  : Prop :=
  forall T s, m (prepend T s) = (fst (m s), prepend T (snd (m s))).

(** From [s] to [s'] views of the array [r] were appended, and the
    attribute [source_image] is the same. *)
Definition appended (Image : Type) (r : nat)
           (s s' : TableProcessor.State Image) : Prop :=
  TableProcessor.source_image (TableProcessor.self s')
  = TableProcessor.source_image (TableProcessor.self s)
  /\ exists extra,
      TableProcessor.detected_tables (TableProcessor.self s')
      = TableProcessor.detected_tables (TableProcessor.self s) ++ extra
      /\ Forall (fun v => TableProcessor.view_base v = r) extra.

(** A page for the detector: an image is described by the rectangles drawn
    on it so far; the detector finds one table on every image. *)
Definition drawing : Type := list (Z * Z * Z * Z).

Definition one_table (img : drawing) : list TableProcessor.Detection :=
  [TableProcessor.mkDetection
     [TableProcessor.mkBox [[0.5; 1.5; 10; 20]%float]]].

Definition add_rectangle (img : drawing) (p q : Z * Z) : drawing :=
  img ++ [(fst p, snd p, fst q, snd q)].

Definition fresh_detector : TableProcessor.State drawing :=
  TableProcessor.mkState
    (fun p => if String.eqb p "page.png" then Some [] else None)
    []
    (TableProcessor.mkTableExtractor [] None).

(** Order of two elements by their key. *)
Definition le_key (A : Type) (key : A -> float) (a b : A) : Prop :=
  float_le (key a) (key b).

(** * More of the program

    The recogniser and the server raise exceptions of further kinds, and
    call libraries that may raise anything. *)

Inductive Exception : Type :=
| Known (e : PyError)
| TypeError
| Other (what : string).

Inductive Outcome (A : Type) : Type :=
| Returned (a : A)
| Raised (e : Exception).

Arguments Returned {A} a.
Arguments Raised {A} e.

Definition outcome_of (A : Type) (r : Result A) : Outcome A :=
  match r with
  | Ok a => Returned a
  | Raise e => Raised (Known e)
  end.

(** ** [TextExtractor.extract_text] *)

Module OcrEngine.

(** One recognised line, [[box, (text, confidence)]], as the recogniser
    shapes it. *)
Record Line : Type := mkLine {
  line_box : OcrProcessor.BBox;
  line_text : string;
  line_confidence : float
}.

Section ExtractText.
(** [ocr img] is what [self.ocr_engine.ocr(img, cls=...)] returns or
    raises: one entry per image, which is the list of the lines or [None]. *)
Variable Image : Type.
Variable ocr : Image -> Outcome (list (option (list Line))).

(** [extract_text]: the instance after a call that returns.  All four
    attributes are assigned, so that instance does not depend on the
    instance before the call.  When the call raises, [source_image] alone
    has been assigned; that instance is not described. *)
Definition extract_text (input_image : Image)
  : Outcome (OcrProcessor.TextExtractor Image) :=
  match ocr input_image with
  | Raised e => Raised e
  | Returned ocr_results =>
      match py_index ocr_results 0 with
      | Raise e => Raised (Known e)
      | Ok None => Raised TypeError
      | Ok (Some lines) =>
          Returned (OcrProcessor.mkTextExtractor
                      input_image
                      (map line_box lines)
                      (map line_text lines)
                      (map line_confidence lines))
      end
  end.

End ExtractText.

End OcrEngine.

(** ** [app.extract_text_from_image] *)

Module App.

(** [os.path.join] of two paths. *)
Definition starts_with_slash (s : string) : bool :=
  match s with
  | String c _ => Ascii.eqb c "/"
  | EmptyString => false
  end.

Fixpoint ends_with_slash (s : string) : bool :=
  match s with
  | EmptyString => false
  | String c EmptyString => Ascii.eqb c "/"
  | String _ rest => ends_with_slash rest
  end.

Definition os_path_join (path b : string) : string :=
  if starts_with_slash b then b
  else if (String.eqb path "" || ends_with_slash path)%bool
       then (path ++ b)%string
       else (path ++ "/" ++ b)%string.

(** The JSON of a response. *)
Record RowData : Type := mkRowData {
  row_no : nat;
  data : list string
}.

Record TableData : Type := mkTableData {
  table_no : nat;
  table_rows : list RowData
}.

(** The text of an error: a fixed message, or [str(e)] of an exception. *)
Inductive ErrorText : Type :=
| Message (text : string)
| StrOf (e : Exception).

Inductive Body : Type :=
| TablesBody (tables_data : list TableData)
| ErrorBody (error : ErrorText).

Record Response : Type := mkResponse {
  body : Body;
  status : nat
}.

(** The inner loop: [rows_data] for the rows of one table. *)
Fixpoint number_rows (row_index : nat) (table_rows : list (list string))
  : list RowData :=
  match table_rows with
  | [] => []
  | row :: rest => mkRowData (row_index + 1) row :: number_rows (S row_index) rest
  end.

Section Server.
(** External collaborators: the detector and [cv2.rectangle] as in
    [TableProcessor]; [crop arr rows cols] is the content of the slice
    [arr[y0:y1, x0:x1]]; [ocr] is the recogniser on the content of an image;
    [cv2_line_on arr rows cols start stop] is the array [arr] after
    [cv2.line] has drawn on its slice. *)
Variable Image : Type.
Variable predict : Image -> list TableProcessor.Detection.
Variable cv2_rectangle : Image -> Z * Z -> Z * Z -> Image.
Variable crop : Image -> Z * Z -> Z * Z -> Image.
Variable ocr : Image -> Outcome (list (option (list OcrEngine.Line))).
Variable cv2_line_on :
  Image -> Z * Z -> Z * Z -> list Z -> list Z -> Result Image.

(** The uploaded file; it decodes to an image. *)
Record FileStorage : Type := mkFileStorage {
  filename : string;
  content : Image
}.

(** [request.files], as far as the key ["image"] goes. *)
Record Request : Type := mkRequest {
  request_image : option FileStorage
}.

(** What outlives a request: the global [table_detector], the files and
    the arrays.  The global is bound by [load_initial_setup], to an
    instance of [TableExtractor], and by nothing else: it is either unbound
    ([None] here) or an instance, and never the value [None] of Python. *)
Record Server : Type := mkServer {
  table_detector : option TableProcessor.TableExtractor;
  server_files : string -> option Image;
  server_arrays : list Image
}.

Definition server_of (st : TableProcessor.State Image) : Server :=
  mkServer (Some (TableProcessor.self st))
           (TableProcessor.files st) (TableProcessor.arrays st).

(** The image a [TextExtractor] holds in the server is a view: it is
    described by the view together with the arrays it looks into. *)
Record Canvas : Type := mkCanvas {
  store : list Image;
  view : TableProcessor.View
}.

Definition canvas_pixels (c : Canvas) : option Image :=
  match nth_error (store c) (TableProcessor.view_base (view c)) with
  | Some arr => Some (crop arr (TableProcessor.view_rows (view c))
                           (TableProcessor.view_cols (view c)))
  | None => None
  end.

Definition ocr_view (c : Canvas)
  : Outcome (list (option (list OcrEngine.Line))) :=
  match canvas_pixels c with
  | Some pixels => ocr pixels
  | None => Raised (Other "view of a missing array")
  end.

Definition cv2_line_view (c : Canvas) (start stop : list Z) : Result Canvas :=
  match nth_error (store c) (TableProcessor.view_base (view c)) with
  | Some arr =>
      match cv2_line_on arr (TableProcessor.view_rows (view c))
                        (TableProcessor.view_cols (view c)) start stop with
      | Ok arr' =>
          Ok (mkCanvas (TableProcessor.update_at
                          (fun _ => arr')
                          (TableProcessor.view_base (view c)) (store c))
                       (view c))
      | Raise e => Raise e
      end
  | None => Raise Cv2Error
  end.

(** The body of the loop over the tables, up to the rows: [extract_text],
    [annotate_image], [save_annotated_image], [group_text_into_rows]. *)
Definition read_table (table_image : TableProcessor.View)
           (st : TableProcessor.State Image)
  : Outcome (list (list string)) * TableProcessor.State Image :=
  match OcrEngine.extract_text ocr_view
          (mkCanvas (TableProcessor.arrays st) table_image) with
  | Raised e => (Raised e, st)
  | Returned ocr_processor =>
      match OcrProcessor.annotate_image cv2_line_view ocr_processor with
      | (Raise e, ocr_processor') =>
          (Raised (Known e),
           TableProcessor.mkState
             (TableProcessor.files st)
             (store (OcrProcessor.source_image ocr_processor'))
             (TableProcessor.self st))
      | (Ok _, ocr_processor') =>
          (outcome_of (OcrProcessor.group_text_into_rows ocr_processor'),
           TableProcessor.mkState
             (fun p =>
                if String.eqb p "annotated_output.png"
                then match canvas_pixels
                             (OcrProcessor.source_image ocr_processor') with
                     | Some pixels => Some pixels
                     | None => TableProcessor.files st p
                     end
                else TableProcessor.files st p)
             (store (OcrProcessor.source_image ocr_processor'))
             (TableProcessor.self st))
      end
  end.

(** The loop over the tables, from the index [table_index] on. *)
Fixpoint read_tables (table_index : nat)
         (tables_cropped_images : list TableProcessor.View)
         (tables_data : list TableData) (st : TableProcessor.State Image)
  : Outcome (list TableData) * TableProcessor.State Image :=
  match tables_cropped_images with
  | [] => (Returned tables_data, st)
  | table_image :: rest =>
      match read_table table_image st with
      | (Raised e, st') => (Raised e, st')
      | (Returned table_rows, st') =>
          read_tables (S table_index) rest
                      (tables_data
                       ++ [mkTableData (table_index + 1)
                                       (number_rows 0 table_rows)])
                      st'
      end
  end.

(** From the detection to [table_detector.reset()].  The constructor
    [TextExtractor()] is taken to return; the list that [execute] returned
    is the detector's own list, which nothing changes during the loop. *)
Definition detect_and_read (image_path : string)
           (st : TableProcessor.State Image)
  : Outcome (list TableData) * TableProcessor.State Image :=
  match TableProcessor.execute predict cv2_rectangle image_path st with
  | (Raise e, st1) => (Raised (Known e), st1)
  | (Ok tables_cropped_images, st1) =>
      match read_tables 0 tables_cropped_images [] st1 with
      | (Raised e, st2) => (Raised e, st2)
      | (Returned tables_data, st2) =>
          (Returned tables_data, snd (TableProcessor.reset st2))
      end
  end.

(** [extract_text_from_image]; the folder [./images] exists.  While the
    global is unbound, reading it in [table_detector is None] raises
    [NameError] inside the [try], and the handler answers with [str(e)];
    once it is bound the test is false. *)
Definition extract_text_from_image (request : Request) (sv : Server)
  : Response * Server :=
  match table_detector sv with
  | None => (mkResponse (ErrorBody (StrOf (Known NameError))) 500, sv)
  | Some detector =>
      match request_image request with
      | None =>
          (mkResponse
             (ErrorBody
                (Message "No image file provided in the variable 'image'."))
             400,
           sv)
      | Some image_file =>
          if String.eqb (filename image_file) ""
          then (mkResponse (ErrorBody (Message "Invalid image file")) 400, sv)
          else
            let image_path := os_path_join "./images" (filename image_file) in
            let st :=
              TableProcessor.mkState
                (fun p => if String.eqb p image_path
                          then Some (content image_file)
                          else server_files sv p)
                (server_arrays sv) detector in
            match detect_and_read image_path st with
            | (Returned tables_data, st') =>
                (mkResponse (TablesBody tables_data) 200, server_of st')
            | (Raised e, st') =>
                (mkResponse (ErrorBody (StrOf e)) 500, server_of st')
            end
      end
  end.

End Server.

End App.

(** * Further vocabulary *)



(** Every item passes the test of the loop against the item [first]. *)
Definition all_near (first : OcrProcessor.Item) (l : list OcrProcessor.Item)
  : Prop :=
  Forall (fun x => near (OcrProcessor.avg_y x) (OcrProcessor.avg_y first) = true)
         l.

(** No two of the items have equal [avg_y]. *)
Definition distinct_y (l : list OcrProcessor.Item) : Prop :=
  ForallOrdPairs
    (fun a b => (OcrProcessor.avg_y a =? OcrProcessor.avg_y b)%float = false) l.

(** A loop that carries a value and may raise. *)
Fixpoint foldM (A B : Type) (f : B -> A -> Result B) (l : list A) (b : B)
  : Result B :=
  match l with
  | [] => Ok b
  | a :: l' => bind (f b a) (foldM f l')
  end.

(** The sides of the closed polygon through the points: every point is
    joined to the next one and the last point to the first. *)
Definition polygon_edges (pts : list (list Z)) : list (list Z * list Z) :=
  match pts with
  | [] => []
  | p :: rest => combine pts (rest ++ [p])
  end.

(** Drawing one side with [cv2.line]. *)
Definition draw_edge (Image : Type)
           (cv2_line : Image -> list Z -> list Z -> Result Image)
           (img : Image) (e : list Z * list Z) : Result Image :=
  cv2_line img (fst e) (snd e).

(** The sides to draw for a bounding box: those of the polygon through its
    points, with the coordinates cut to integers; or the error of the first
    coordinate that has no integer. *)
Definition box_edges (bbox : OcrProcessor.BBox)
  : Result (list (list Z * list Z)) :=
  bind (mapM (fun point : OcrProcessor.Point => mapM py_int point) bbox)
       (fun pts => Ok (polygon_edges pts)).

(** Drawing the sides of one bounding box. *)
Definition draw_box (Image : Type)
           (cv2_line : Image -> list Z -> list Z -> Result Image)
           (img : Image) (bbox : OcrProcessor.BBox) : Result Image :=
  bind (box_edges bbox) (fun edges => foldM (draw_edge cv2_line) edges img).

(** An image on which drawing is recorded: the list of the segments drawn
    so far; and an extractor holding it. *)
Definition sketch : Type := list (list Z * list Z).

Definition record_line (img : sketch) (start stop : list Z) : Result sketch :=
  Ok (img ++ [(start, stop)]).

Definition sketching (boxes : list OcrProcessor.BBox)
  : OcrProcessor.TextExtractor sketch :=
  OcrProcessor.mkTextExtractor [] boxes [] [].

(** The window of a detected box: the first row of its [xyxy], which must
    have four coordinates, cut to integers. *)
Definition box_window (b : TableProcessor.Box) : Result (Z * Z * Z * Z) :=
  bind (py_index (TableProcessor.xyxy b) 0) TableProcessor.unpack4_int.

(** The boxes of all detection results, in the order of detection. *)
Definition all_boxes (detections : list TableProcessor.Detection)
  : list TableProcessor.Box :=
  concat (map TableProcessor.boxes detections).

(** The view of the array [r] through a window. *)
Definition window_view (r : nat) (w : Z * Z * Z * Z) : TableProcessor.View :=
  let '(x_min, y_min, x_max, y_max) := w in
  TableProcessor.mkView r (y_min, y_max) (x_min, x_max).

(** The rectangle of a window drawn on an image. *)
Definition draw_window (Image : Type)
           (cv2_rectangle : Image -> Z * Z -> Z * Z -> Image)
           (img : Image) (w : Z * Z * Z * Z) : Image :=
  let '(x_min, y_min, x_max, y_max) := w in
  cv2_rectangle img (x_min, y_min) (x_max, y_max).

(** A detector that finds two tables on every image, the second with a
    box of three coordinates. *)
Definition one_table_one_broken (img : drawing)
  : list TableProcessor.Detection :=
  [TableProcessor.mkDetection
     [TableProcessor.mkBox [[0.5; 1.5; 10; 20]%float];
      TableProcessor.mkBox [[1; 2; 3]%float]]].

(** A recogniser for the examples: it finds nothing on an image with one
    rectangle drawn, and two lines of text on any other image. *)
Definition two_lines : list OcrEngine.Line :=
  [OcrEngine.mkLine (box_at 5 1) "B" 0.9%float;
   OcrEngine.mkLine (box_at 0 0) "A" 0.8%float].

Definition blind_on_one_rectangle (img : drawing)
  : Outcome (list (option (list OcrEngine.Line))) :=
  match img with
  | [_] => Returned [None]
  | _ => Returned [Some two_lines]
  end.

(** A server whose detector holds a first table on which [extract_text]
    raises. *)
Definition poisoned (Image : Type)
           (crop : Image -> Z * Z -> Z * Z -> Image)
           (ocr : Image -> Outcome (list (option (list OcrEngine.Line))))
           (sv : App.Server Image) : Prop :=
  exists detector v rest e,
    App.table_detector sv = Some detector
    /\ TableProcessor.detected_tables detector = v :: rest
    /\ (TableProcessor.view_base v < length (App.server_arrays sv))%nat
    /\ OcrEngine.extract_text (App.ocr_view crop ocr)
                              (App.mkCanvas (App.server_arrays sv) v)
       = Raised e.

(** The rows of the tables of a response are numbered from 1. *)
Definition rows_numbered (t : App.TableData) : Prop :=
  map App.row_no (App.table_rows t) = seq 1 (length (App.table_rows t)).

(** Collaborators for the examples: a slice shows the whole array, and
    drawing a line leaves no trace. *)
Definition whole_array (arr : drawing) (rows cols : Z * Z) : drawing := arr.

Definition invisible_line (arr : drawing) (rows cols : Z * Z)
           (start stop : list Z) : Result drawing :=
  Ok arr.

Definition new_server : App.Server drawing :=
  App.mkServer (Some (TableProcessor.mkTableExtractor [] None))
               (fun _ => None) [].

Definition upload (name : string) (img : drawing) : App.Request drawing :=
  App.mkRequest (Some (App.mkFileStorage name img)).

(** The state in which the server starts the detection: the upload is
    stored under its path in [./images]. *)
Definition saved_upload (Image : Type) (sv : App.Server Image)
           (detector : TableProcessor.TableExtractor)
           (image_file : App.FileStorage Image)
  : TableProcessor.State Image :=
  TableProcessor.mkState
    (fun p => if String.eqb p (App.os_path_join "./images"
                                                (App.filename image_file))
              then Some (App.content image_file)
              else App.server_files sv p)
    (App.server_arrays sv) detector.


(** A detector that finds one table whose box has an infinite coordinate. *)
Definition one_infinite_table (img : drawing) : list TableProcessor.Detection :=
  [TableProcessor.mkDetection
     [TableProcessor.mkBox [[0.5; 1.5; infinity; 20]%float]]].


(** The place of a float that is not NaN in the order of the floats: its
    sign class, then its exponent, then its mantissa. *)
Definition rank (x : spec_float) : Z * Z * Z :=
  match x with
  | S754_nan => (0, 0, 0)
  | S754_zero _ => (0, 0, 0)
  | S754_infinity true => (-2, 0, 0)
  | S754_infinity false => (2, 0, 0)
  | S754_finite false m e => (1, e, Zpos m)
  | S754_finite true m e => (-1, - e, Zneg m)
  end%Z.

(** Comparison of triples, the first component first. *)
Definition lex_compare (a b : Z * Z * Z) : comparison :=
  match (fst (fst a) ?= fst (fst b))%Z with
  | Eq => match (snd (fst a) ?= snd (fst b))%Z with
          | Eq => (snd a ?= snd b)%Z
          | c => c
          end
  | c => c
  end.

Definition lex_lt (a b : Z * Z * Z) : Prop :=
  (fst (fst a) < fst (fst b)
   \/ (fst (fst a) = fst (fst b)
       /\ (snd (fst a) < snd (fst b)
           \/ (snd (fst a) = snd (fst b) /\ snd a < snd b))))%Z.

(** * Properties *)

(** ** Floats

    The axioms of the library give every operation of the primitive floats
    by its specification on [spec_float]; the facts below are derived from
    them.  Two floats that are not NaN are compared as the triples of their
    sign class, exponent and mantissa. *)

Lemma SFcompare_rank (x y : spec_float) :
  x <> S754_nan -> y <> S754_nan ->
  SFcompare x y = Some (lex_compare (rank x) (rank y)).
Proof.
  intros Hx Hy.
  destruct x as [sx|sx| |sx mx ex], y as [sy|sy| |sy my ey];
    try congruence;
    try (destruct sx; reflexivity);
    try (destruct sy; reflexivity);
    try (destruct sx, sy; reflexivity).
  destruct sx, sy; try reflexivity.
  - cbn [SFcompare rank]. unfold lex_compare. cbn [fst snd].
    change (-1 ?= -1)%Z with Eq. cbv iota.
    rewrite Z.compare_opp, (Z.compare_antisym ex ey).
    destruct (ex ?= ey)%Z eqn:E; cbn [CompOpp]; try reflexivity.
Qed.

Lemma lex_compare_Lt (a b : Z * Z * Z) : lex_compare a b = Lt <-> lex_lt a b.
Proof.
  destruct a as [[a1 a2] a3], b as [[b1 b2] b3].
  unfold lex_compare, lex_lt. cbn [fst snd].
  destruct (Z.compare_spec a1 b1), (Z.compare_spec a2 b2), (Z.compare_spec a3 b3);
    split; intros Hc; try discriminate; try reflexivity; try lia.
Qed.

Lemma lex_compare_Gt (a b : Z * Z * Z) : lex_compare a b = Gt <-> lex_lt b a.
Proof.
  destruct a as [[a1 a2] a3], b as [[b1 b2] b3].
  unfold lex_compare, lex_lt. cbn [fst snd].
  destruct (Z.compare_spec a1 b1), (Z.compare_spec a2 b2), (Z.compare_spec a3 b3);
    split; intros Hc; try discriminate; try reflexivity; try lia.
Qed.

Lemma lex_compare_Eq (a b : Z * Z * Z) : lex_compare a b = Eq <-> a = b.
Proof.
  destruct a as [[a1 a2] a3], b as [[b1 b2] b3].
  unfold lex_compare. cbn [fst snd].
  destruct (Z.compare_spec a1 b1), (Z.compare_spec a2 b2), (Z.compare_spec a3 b3);
    split; intros Hc; try discriminate; try reflexivity; try congruence;
    injection Hc; intros; lia.
Qed.

Lemma is_nan_spec (x : float) :
  is_nan x = match Prim2SF x with S754_nan => true | _ => false end.
Proof.
  unfold is_nan. rewrite FloatAxioms.eqb_spec. unfold SFeqb.
  destruct (Prim2SF x) as [s|s| |s m e] eqn:E; try reflexivity.
  - now destruct s.
  - rewrite SFcompare_rank by discriminate.
    now rewrite (proj2 (lex_compare_Eq _ _) eq_refl).
Qed.

Lemma not_nan_spec (x : float) : is_nan x = false <-> Prim2SF x <> S754_nan.
Proof.
  rewrite is_nan_spec. destruct (Prim2SF x); split; intros H; congruence.
Qed.

Lemma is_finite_spec (x : float) :
  is_finite x = match Prim2SF x with
                | S754_zero _ | S754_finite _ _ _ => true
                | _ => false
                end.
Proof.
  unfold is_finite, is_infinity. rewrite is_nan_spec, FloatAxioms.eqb_spec, FloatAxioms.abs_spec.
  destruct (Prim2SF x) as [s|s| |s m e]; reflexivity.
Qed.

Lemma is_finite_not_nan (x : float) : is_finite x = true -> is_nan x = false.
Proof.
  rewrite is_finite_spec, is_nan_spec. now destruct (Prim2SF x).
Qed.

Lemma leb_not_nan (x y : float) :
  (x <=? y)%float = true -> is_nan x = false /\ is_nan y = false.
Proof.
  rewrite FloatAxioms.leb_spec, !is_nan_spec. unfold SFleb.
  destruct (Prim2SF x), (Prim2SF y); cbn; intros H; try discriminate; now split.
Qed.

Lemma leb_lex (x y : float) :
  is_nan x = false -> is_nan y = false ->
  ((x <=? y)%float = true
   <-> ~ lex_lt (rank (Prim2SF y)) (rank (Prim2SF x))).
Proof.
  intros Hx Hy. apply not_nan_spec in Hx, Hy.
  rewrite FloatAxioms.leb_spec. unfold SFleb. rewrite (@SFcompare_rank _ _ Hx Hy).
  rewrite <- lex_compare_Gt.
  destruct (lex_compare (rank (Prim2SF x)) (rank (Prim2SF y)));
    split; intros H; congruence.
Qed.

Lemma ltb_lex (x y : float) :
  is_nan x = false -> is_nan y = false ->
  ((x <? y)%float = true <-> lex_lt (rank (Prim2SF x)) (rank (Prim2SF y))).
Proof.
  intros Hx Hy. apply not_nan_spec in Hx, Hy.
  rewrite FloatAxioms.ltb_spec. unfold SFltb. rewrite (@SFcompare_rank _ _ Hx Hy).
  rewrite <- lex_compare_Lt.
  destruct (lex_compare (rank (Prim2SF x)) (rank (Prim2SF y)));
    split; intros H; congruence.
Qed.

Lemma ltb_not_nan (x y : float) :
  (x <? y)%float = true -> is_nan x = false /\ is_nan y = false.
Proof.
  rewrite FloatAxioms.ltb_spec, !is_nan_spec. unfold SFltb.
  destruct (Prim2SF x), (Prim2SF y); cbn; intros H; try discriminate; now split.
Qed.

Lemma float_le_trans (x y z : float) :
  float_le x y -> float_le y z -> float_le x z.
Proof.
  unfold float_le. intros H1 H2.
  destruct (@leb_not_nan _ _ H1) as [Hx Hy].
  destruct (@leb_not_nan _ _ H2) as [_ Hz].
  apply (@leb_lex _ _ Hx Hy) in H1. apply (@leb_lex _ _ Hy Hz) in H2.
  apply (@leb_lex _ _ Hx Hz). unfold lex_lt in *. lia.
Qed.


Lemma ltb_false_le (x y : float) :
  is_nan x = false -> is_nan y = false ->
  (y <? x)%float = false -> float_le x y.
Proof.
  intros Hx Hy H. apply (@leb_lex _ _ Hx Hy). intros Hlt.
  apply (@ltb_lex _ _ Hy Hx) in Hlt. congruence.
Qed.

Lemma ltb_le (x y : float) : (x <? y)%float = true -> float_le x y.
Proof.
  intros H. destruct (@ltb_not_nan _ _ H) as [Hx Hy].
  apply (@leb_lex _ _ Hx Hy). apply (@ltb_lex _ _ Hx Hy) in H. unfold lex_lt in *. lia.
Qed.

Lemma float_le_ltb (x y : float) : float_le x y -> (y <? x)%float = false.
Proof.
  intros H. destruct (@leb_not_nan _ _ H) as [Hx Hy].
  apply (@leb_lex _ _ Hx Hy) in H.
  destruct (y <? x)%float eqn:E; [|reflexivity].
  apply (@ltb_lex _ _ Hy Hx) in E. contradiction.
Qed.

Lemma float_le_antisym (x y : float) :
  float_le x y -> float_le y x -> (x =? y)%float = true.
Proof.
  intros H1 H2. destruct (@leb_not_nan _ _ H1) as [Hx Hy].
  apply (@leb_lex _ _ Hx Hy) in H1. apply (@leb_lex _ _ Hy Hx) in H2.
  rewrite FloatAxioms.eqb_spec. unfold SFeqb.
  apply not_nan_spec in Hx, Hy. rewrite (@SFcompare_rank _ _ Hx Hy).
  assert (E : rank (Prim2SF x) = rank (Prim2SF y)).
  { destruct (rank (Prim2SF x)) as [[a1 a2] a3], (rank (Prim2SF y)) as [[b1 b2] b3].
    unfold lex_lt in *. cbn [fst snd] in *.
    assert (a1 = b1) by lia. assert (a2 = b2) by lia. assert (a3 = b3) by lia.
    congruence. }
  now rewrite (proj2 (lex_compare_Eq _ _) E).
Qed.

Lemma self_near (x : float) :
  is_finite x = true -> (abs (x - x) <? OcrProcessor.row_threshold)%float = true.
Proof.
  rewrite is_finite_spec, FloatAxioms.ltb_spec, FloatAxioms.abs_spec, FloatAxioms.sub_spec.
  destruct (Prim2SF x) as [s|s| |s m e]; try discriminate; intros _.
  - now destruct s.
  - unfold SF64sub, SFsub. rewrite Z.sub_diag. reflexivity.
Qed.


Lemma binary_round_aux_abs (s s' : bool) (m e : Z) (l : location) :
  SFabs (binary_round_aux prec emax s m e l)
  = SFabs (binary_round_aux prec emax s' m e l).
Proof.
  unfold binary_round_aux.
  destruct (shr_fexp prec emax m e l) as [mrs' e'].
  destruct (shr_fexp prec emax _ e' loc_Exact) as [mrs'' e''].
  destruct (shr_m mrs''); try reflexivity.
  now destruct (e'' <=? emax - prec)%Z.
Qed.

Lemma binary_normalize_abs (m e : Z) :
  SFabs (binary_normalize prec emax (- m) e false)
  = SFabs (binary_normalize prec emax m e false).
Proof.
  destruct m as [|p|p]; cbn [Z.opp binary_normalize]; try reflexivity;
    unfold binary_round; destruct (shl_align _ _ _); apply binary_round_aux_abs.
Qed.

Lemma SFsub_abs_sym (x y : spec_float) :
  SFabs (SFsub prec emax x y) = SFabs (SFsub prec emax y x).
Proof.
  destruct x as [sx|sx| |sx mx ex], y as [sy|sy| |sy my ey];
    try reflexivity; try (destruct sx, sy; reflexivity).
  cbn [SFsub]. rewrite (Z.min_comm ey ex).
  rewrite <- binary_normalize_abs. f_equal. f_equal. lia.
Qed.

Lemma Prim2SF_inj (x y : float) : Prim2SF x = Prim2SF y -> x = y.
Proof.
  intros H. rewrite <- (SF2Prim_Prim2SF x), <- (SF2Prim_Prim2SF y).
  now rewrite H.
Qed.

Lemma abs_sub_sym (x y : float) : abs (x - y) = abs (y - x).
Proof.
  apply Prim2SF_inj. rewrite !FloatAxioms.abs_spec, !FloatAxioms.sub_spec. apply SFsub_abs_sym.
Qed.

Lemma eqb_ltb_false (d t : float) : (d =? t)%float = true -> (d <? t)%float = false.
Proof.
  rewrite FloatAxioms.eqb_spec, FloatAxioms.ltb_spec. unfold SFeqb, SFltb.
  now destruct (SFcompare (Prim2SF d) (Prim2SF t)) as [[| |]|].
Qed.

Lemma near_self (x : float) : is_finite x = true -> near x x = true.
Proof. apply self_near. Qed.

Lemma near_sym (x y : float) : near x y = near y x.
Proof. unfold near. now rewrite abs_sub_sym. Qed.

Lemma exact_finite (x y : float) :
  (abs (x - y) =? OcrProcessor.row_threshold)%float = true ->
  is_finite x = true /\ is_finite y = true.
Proof.
  rewrite !is_finite_spec, FloatAxioms.eqb_spec, FloatAxioms.abs_spec, FloatAxioms.sub_spec.
  destruct (Prim2SF x) as [sx|sx| |sx mx ex], (Prim2SF y) as [sy|sy| |sy my ey];
    try (now split); try (destruct sx; discriminate);
    try (destruct sy; discriminate); try (destruct sx, sy; discriminate);
    try discriminate.
Qed.



Lemma py_int_Raise (x : float) (e : PyError) :
  py_int x = Raise e ->
  (e = ValueError /\ is_nan x = true)
  \/ (e = OverflowError /\ is_infinity x = true).
Proof.
  unfold py_int, is_infinity.
  rewrite is_nan_spec, FloatAxioms.eqb_spec, FloatAxioms.abs_spec.
  destruct (Prim2SF x) as [s|s| |s m ex]; intros [= <-]; [right | left];
    now split.
Qed.

Lemma py_int_Ok (x : float) :
  is_finite x = true -> exists z, py_int x = Ok z.
Proof.
  rewrite is_finite_spec. unfold py_int.
  destruct (Prim2SF x); try discriminate; intros _; eexists; reflexivity.
Qed.

Lemma eqb_rank (x y : float) :
  (x =? y)%float = true
  <-> is_nan x = false /\ is_nan y = false
      /\ rank (Prim2SF x) = rank (Prim2SF y).
Proof.
  rewrite FloatAxioms.eqb_spec, !is_nan_spec. unfold SFeqb. split.
  - intros H.
    destruct (SFcompare (Prim2SF x) (Prim2SF y)) as [[| |]|] eqn:E;
      try discriminate.
    assert (Hx : Prim2SF x <> S754_nan) by (intros Hn; now rewrite Hn in E).
    assert (Hy : Prim2SF y <> S754_nan)
      by (intros Hn; rewrite Hn in E; now destruct (Prim2SF x)).
    rewrite (@SFcompare_rank _ _ Hx Hy) in E. injection E as E.
    apply lex_compare_Eq in E.
    destruct (Prim2SF x), (Prim2SF y); try congruence; now repeat split.
  - intros (Hx & Hy & E).
    assert (Hx' : Prim2SF x <> S754_nan) by (intros Hn; now rewrite Hn in Hx).
    assert (Hy' : Prim2SF y <> S754_nan) by (intros Hn; now rewrite Hn in Hy).
    rewrite (@SFcompare_rank _ _ Hx' Hy').
    now rewrite (proj2 (lex_compare_Eq _ _) E).
Qed.

Lemma eqb_sym (x y : float) : (x =? y)%float = (y =? x)%float.
Proof.
  destruct (x =? y)%float eqn:E1, (y =? x)%float eqn:E2; try reflexivity.
  - apply eqb_rank in E1. destruct E1 as (Hx & Hy & E).
    rewrite (proj2 (eqb_rank y x)) in E2 by now repeat split.
    discriminate.
  - apply eqb_rank in E2. destruct E2 as (Hy & Hx & E).
    rewrite (proj2 (eqb_rank x y)) in E1 by now repeat split.
    discriminate.
Qed.

Lemma eqb_refl (x : float) : is_nan x = false -> (x =? x)%float = true.
Proof. intros H. apply eqb_rank. now repeat split. Qed.

(** Two floats equal to a third are not in the order [<]. *)
Lemma eqb_not_ltb (x y k : float) :
  (y =? k)%float = true -> (x =? k)%float = true -> (y <? x)%float = false.
Proof.
  intros Hy Hx. apply eqb_rank in Hy, Hx.
  destruct Hy as (Hy & _ & Ey), Hx as (Hx & _ & Ex).
  destruct (y <? x)%float eqn:E; [|reflexivity].
  apply (@ltb_lex _ _ Hy Hx) in E. rewrite Ey, Ex in E.
  unfold lex_lt in E. lia.
Qed.


(** ** Sorting by a key *)

Section SortByKeyFacts.
Variable A : Type.
Variable key : A -> float.

Lemma insert_by_perm (x : A) (l : list A) :
  Permutation (insert_by key x l) (x :: l).
Proof.
  induction l as [|y l IH]; simpl.
  - reflexivity.
  - destruct (key y <? key x)%float.
    + rewrite IH. apply perm_swap.
    + reflexivity.
Qed.

Lemma sort_by_perm (l : list A) : Permutation (sort_by key l) l.
Proof.
  induction l as [|x l IH]; simpl.
  - reflexivity.
  - rewrite insert_by_perm. now constructor.
Qed.

Lemma sort_by_length (l : list A) : length (sort_by key l) = length l.
Proof. apply Permutation_length, sort_by_perm. Qed.

(** The keys are ordered by [<] when none is NaN: the sorted list is then
    in the order of [<=]. *)
Lemma insert_by_sorted (x : A) (l : list A) :
  is_nan (key x) = false ->
  Forall (fun y => is_nan (key y) = false) l ->
  StronglySorted (le_key key) l -> StronglySorted (le_key key) (insert_by key x l).
Proof.
  intros Hx Hl Hs. induction Hs as [|y l Hs IH Hy]; simpl.
  - repeat constructor.
  - inversion Hl as [|y' l' Hny Hl']; subst.
    destruct (key y <? key x)%float eqn:E.
    + constructor; [now apply IH|].
      rewrite insert_by_perm.
      constructor; [|exact Hy].
      apply ltb_le, E.
    + assert (Hxy : le_key key x y) by now apply ltb_false_le.
      constructor; [now constructor|].
      constructor; [exact Hxy|].
      eapply Forall_impl; [|exact Hy].
      intros z Hz. unfold le_key in *. eapply float_le_trans; eassumption.
Qed.

Lemma sort_by_sorted (l : list A) :
  Forall (fun y => is_nan (key y) = false) l ->
  StronglySorted (le_key key) (sort_by key l).
Proof.
  induction 1 as [|x l Hx Hl IH]; simpl.
  - constructor.
  - apply insert_by_sorted; [exact Hx| |exact IH].
    eapply Permutation_Forall; [|exact Hl]. symmetry. apply sort_by_perm.
Qed.

Lemma sort_by_nil_inv (l : list A) : sort_by key l = [] -> l = [].
Proof.
  intros H. apply length_zero_iff_nil.
  rewrite <- sort_by_length, H. reflexivity.
Qed.
End SortByKeyFacts.

Section StableSort.
Variable A : Type.
Variable key : A -> float.

(** The elements whose key is equal to [k]. *)
Lemma insert_by_stable (k : float) (x : A) (l : list A) :
  filter (fun z => key z =? k)%float (insert_by key x l)
  = filter (fun z => key z =? k)%float (x :: l).
Proof.
  induction l as [|y l IH].
  - reflexivity.
  - cbn [insert_by]. destruct (key y <? key x)%float eqn:E; [|reflexivity].
    cbn [filter] in *. rewrite IH.
    destruct (key y =? k)%float eqn:Ey, (key x =? k)%float eqn:Ex;
      try reflexivity.
    rewrite (eqb_not_ltb Ey Ex) in E. discriminate.
Qed.

(** Stability: the elements that share a key keep their order. *)
Lemma sort_by_stable (k : float) (l : list A) :
  filter (fun z => key z =? k)%float (sort_by key l)
  = filter (fun z => key z =? k)%float l.
Proof.
  induction l as [|x l IH].
  - reflexivity.
  - cbn [sort_by]. rewrite insert_by_stable. cbn [filter].
    now rewrite IH.
Qed.

Lemma sorted_stable_eq (l1 : list A) :
  forall l2,
    Forall (fun y => is_nan (key y) = false) l1 ->
    Forall (fun y => is_nan (key y) = false) l2 ->
    StronglySorted (le_key key) l1 ->
    StronglySorted (le_key key) l2 ->
    (forall k, filter (fun z => key z =? k)%float l1
               = filter (fun z => key z =? k)%float l2) ->
    l1 = l2.
Proof.
  induction l1 as [|a l1 IH]; intros l2 Hn1 Hn2 Hs1 Hs2 Hst.
  - destruct l2 as [|b l2]; [reflexivity|exfalso].
    inversion Hn2 as [|b' l' Hb _]; subst.
    specialize (Hst (key b)). cbn [filter] in Hst.
    rewrite (eqb_refl _ Hb) in Hst. discriminate.
  - inversion Hn1 as [|a' l' Ha Hn1']; subst.
    destruct l2 as [|b l2].
    { specialize (Hst (key a)). cbn [filter] in Hst.
      rewrite (eqb_refl _ Ha) in Hst. discriminate. }
    inversion Hn2 as [|b' l' Hb Hn2']; subst.
    inversion Hs1 as [|a' l' Hs1' Hla]; subst.
    inversion Hs2 as [|b' l' Hs2' Hlb]; subst.
    assert (E : a = b).
    { pose proof (Hst (key a)) as Hka. cbn [filter] in Hka.
      rewrite (eqb_refl _ Ha) in Hka.
      destruct (key b =? key a)%float eqn:Eba; [now injection Hka|exfalso].
      assert (Hina : In a l2).
      { apply (proj1 (filter_In (fun z => key z =? key a)%float a l2)).
        rewrite <- Hka. now left. }
      pose proof (Hst (key b)) as Hkb. cbn [filter] in Hkb.
      rewrite (eqb_refl _ Hb), (eqb_sym (key a) (key b)), Eba in Hkb.
      assert (Hinb : In b l1).
      { apply (proj1 (filter_In (fun z => key z =? key b)%float b l1)).
        rewrite Hkb. now left. }
      rewrite Forall_forall in Hla, Hlb.
      pose proof (float_le_antisym (Hlb a Hina) (Hla b Hinb)) as Heq.
      congruence. }
    subst b. f_equal. apply IH; try assumption.
    intros k. specialize (Hst k). cbn [filter] in Hst.
    destruct (key a =? k)%float; [now injection Hst | exact Hst].
Qed.

(** When no key is NaN there is one stable sort: a permutation of [l] that
    is in the order of the keys and keeps the order of the elements with
    equal keys is the list that [sort_by] computes. *)
Lemma stable_sort_unique (l l' : list A) :
  Forall (fun y => is_nan (key y) = false) l ->
  Permutation l' l ->
  StronglySorted (le_key key) l' ->
  (forall k, filter (fun z => key z =? k)%float l'
             = filter (fun z => key z =? k)%float l) ->
  l' = sort_by key l.
Proof.
  intros Hn Hp Hs Hst. apply sorted_stable_eq.
  - eapply Permutation_Forall; [|exact Hn]. now symmetry.
  - eapply Permutation_Forall; [|exact Hn]. symmetry. apply sort_by_perm.
  - exact Hs.
  - now apply sort_by_sorted.
  - intros k. now rewrite sort_by_stable.
Qed.
End StableSort.

(** ** Loops that may raise *)

Section MapMFacts.
Variables A B : Type.
Variable f : A -> Result B.

Lemma mapM_Ok_Forall2 (l : list A) (bs : list B) :
  mapM f l = Ok bs <-> Forall2 (fun a b => f a = Ok b) l bs.
Proof.
  revert bs. induction l as [|a l IH]; intros bs; simpl.
  - split.
    + intros [= <-]. constructor.
    + intros H. inversion H. reflexivity.
  - split.
    + destruct (f a) as [b|e] eqn:Ea; simpl; [|discriminate].
      destruct (mapM f l) as [bs'|e] eqn:El; simpl; [|discriminate].
      intros [= <-]. constructor; [exact Ea|]. now apply IH.
    + intros H. inversion H as [|a' b l' bs' Hab Hl]; subst.
      rewrite Hab. simpl. apply IH in Hl. rewrite Hl. reflexivity.
Qed.

Lemma mapM_Ok_length (l : list A) (bs : list B) :
  mapM f l = Ok bs -> length bs = length l.
Proof.
  intros H. apply mapM_Ok_Forall2 in H. symmetry.
  eapply Forall2_length, H.
Qed.

Lemma mapM_Ok_iff (l : list A) :
  (exists bs, mapM f l = Ok bs) <-> Forall (fun a => exists b, f a = Ok b) l.
Proof.
  induction l as [|a l IH]; simpl.
  - split; [constructor | now exists []].
  - split.
    + intros [bs H].
      destruct (f a) as [b|e] eqn:Ea; simpl in H; [|discriminate].
      destruct (mapM f l) as [bs'|e] eqn:El; simpl in H; [|discriminate].
      constructor; [now exists b|]. apply IH. now exists bs'.
    + intros H. inversion H as [|a' l' [b Hb] Hl]; subst.
      apply IH in Hl. destruct Hl as [bs Hbs].
      exists (b :: bs). now rewrite Hb, Hbs.
Qed.
End MapMFacts.

Lemma mapM_map (A B C : Type) (g : A -> B) (f : B -> Result C) (l : list A) :
  mapM f (map g l) = mapM (fun a => f (g a)) l.
Proof.
  induction l as [|a l IH]; simpl; [reflexivity|]. now rewrite IH.
Qed.

Lemma py_index_Ok_iff (A : Type) (l : list A) (i : nat) :
  (exists a, py_index l i = Ok a) <-> (i < length l)%nat.
Proof.
  unfold py_index. rewrite <- nth_error_Some.
  destruct (nth_error l i) as [a|]; split; intros H.
  - discriminate.
  - now exists a.
  - now destruct H.
  - now contradiction H.
Qed.

(** Two lists read in step by index, as [organize_text_data] does. *)
Lemma mapM_index_pairs (A B C : Type) (g : A -> B -> C)
      (la : list A) (lb : list B) :
  (length la <= length lb)%nat ->
  mapM (fun i => a <- py_index la i ;; b <- py_index lb i ;; Ok (g a b))
       (seq 0 (length la))
  = Ok (map (fun p => g (fst p) (snd p)) (combine la lb)).
Proof.
  revert lb. induction la as [|a la IH]; intros lb Hlen.
  - reflexivity.
  - destruct lb as [|b lb]; simpl in Hlen; [lia|].
    cbn [length seq mapM]. unfold py_index at 1 2. cbn [nth_error bind].
    rewrite <- seq_shift, mapM_map.
    change (mapM (fun i => a0 <- py_index (a :: la) (S i) ;;
                           b0 <- py_index (b :: lb) (S i) ;; Ok (g a0 b0))
                 (seq 0 (length la)))
      with (mapM (fun i => a0 <- py_index la i ;;
                           b0 <- py_index lb i ;; Ok (g a0 b0))
                 (seq 0 (length la))).
    rewrite IH by lia. reflexivity.
Qed.

Lemma map_fst_combine_le (A B : Type) (la : list A) (lb : list B) :
  (length la <= length lb)%nat -> map fst (combine la lb) = la.
Proof.
  revert lb. induction la as [|a la IH]; intros [|b lb] H; simpl in *;
    try reflexivity; try lia.
  f_equal. apply IH. lia.
Qed.

Lemma map_snd_combine_eq (A B : Type) (la : list A) (lb : list B) :
  length la = length lb -> map snd (combine la lb) = lb.
Proof.
  revert lb. induction la as [|a la IH]; intros [|b lb] H; simpl in *;
    try reflexivity; try discriminate.
  f_equal. apply IH. lia.
Qed.

Lemma mapM_Raise_inv (A B : Type) (f : A -> Result B) (l : list A) (e : PyError) :
  mapM f l = Raise e -> exists a, In a l /\ f a = Raise e.
Proof.
  induction l as [|a l IH]; cbn [mapM]; [discriminate|].
  destruct (f a) as [b|e'] eqn:Ea; cbn [bind].
  - destruct (mapM f l) as [bs|e'] eqn:El; cbn [bind]; [discriminate|].
    intros [= ->]. destruct (IH eq_refl) as (a' & Hin & Ha').
    exists a'. split; [now right | exact Ha'].
  - intros [= ->]. exists a. split; [now left | exact Ea].
Qed.

Lemma py_index_Raise (A : Type) (l : list A) (i : nat) (e : PyError) :
  py_index l i = Raise e -> e = IndexError.
Proof.
  unfold py_index. destruct (nth_error l i); [discriminate|]. now intros [= <-].
Qed.

(** ** Reading the input *)

Import OcrProcessor.

Section ReadingFacts.
Variable Image : Type.
Implicit Type self : TextExtractor Image.

Lemma organize_text_data_Ok self :
  (length (bounding_boxes self) <= length (detected_texts self))%nat ->
  organize_text_data self
  = Ok (map (fun p => mkEntry (fst p) (snd p))
            (combine (bounding_boxes self) (detected_texts self))).
Proof.
  intros H. unfold organize_text_data.
  now rewrite (mapM_index_pairs mkEntry _ _ H).
Qed.

Lemma organize_text_data_inv self (es : list Entry) :
  organize_text_data self = Ok es ->
  (length (bounding_boxes self) <= length (detected_texts self))%nat.
Proof.
  intros H.
  destruct (le_lt_dec (length (bounding_boxes self))
                      (length (detected_texts self))) as [Hle|Hlt];
    [exact Hle|exfalso].
  assert (Hall : exists bs, organize_text_data self = Ok bs) by now exists es.
  apply mapM_Ok_iff in Hall. rewrite Forall_forall in Hall.
  destruct (Hall (length (detected_texts self))) as [b Hb].
  { apply in_seq. lia. }
  destruct (proj2 (py_index_Ok_iff (bounding_boxes self)
                                   (length (detected_texts self))) Hlt)
    as [c Hc].
  rewrite Hc in Hb. cbn [bind] in Hb.
  unfold py_index in Hb.
  rewrite (proj2 (nth_error_None (detected_texts self) _) (le_n _)) in Hb.
  discriminate.
Qed.

Lemma mapM_coordinate_Ok_iff (k : nat) (b : BBox) :
  (exists cs, mapM (fun point : Point => py_index point k) b = Ok cs)
  <-> Forall (fun point : Point => (k < length point)%nat) b.
Proof.
  rewrite mapM_Ok_iff. split; apply Forall_impl; intros p;
    apply py_index_Ok_iff.
Qed.

Lemma well_formed_box_iff (b : BBox) :
  well_formed_box b = true
  <-> b <> [] /\ Forall (fun point : Point => (2 <= length point)%nat) b.
Proof.
  unfold well_formed_box. destruct b as [|p b].
  - split; [discriminate | now intros [H _]].
  - rewrite forallb_forall, Forall_forall. unfold well_formed_point.
    split.
    + intros H. split; [discriminate|]. intros q Hq.
      apply Nat.leb_le. now apply H.
    + intros [_ H] q Hq. apply Nat.leb_le. now apply H.
Qed.

Lemma add_centroid_Ok_iff (item : Entry) :
  (exists it, add_centroid item = Ok it)
  <-> well_formed_box (entry_coordinates item) = true.
Proof.
  rewrite well_formed_box_iff. unfold add_centroid. split.
  - intros [it H].
    destruct (mapM (fun point : Point => py_index point 1)
                   (entry_coordinates item)) as [ys|] eqn:Ey; [|now cbn in H].
    destruct (mapM (fun point : Point => py_index point 0)
                   (entry_coordinates item)) as [xs|] eqn:Ex; [|now cbn in H].
    cbn [bind] in H. split.
    + intros Hnil. rewrite Hnil in Ey. cbn in Ey. injection Ey as <-.
      discriminate.
    + assert (Hy : exists cs, mapM (fun point : Point => py_index point 1)
                                   (entry_coordinates item) = Ok cs)
        by now exists ys.
      apply mapM_coordinate_Ok_iff in Hy. exact Hy.
  - intros [Hne Hpts].
    destruct (proj2 (mapM_coordinate_Ok_iff 1 (entry_coordinates item)))
      as [ys Hy].
    { eapply Forall_impl; [|exact Hpts]. intros p Hp. cbn in *. lia. }
    destruct (proj2 (mapM_coordinate_Ok_iff 0 (entry_coordinates item)))
      as [xs Hx].
    { eapply Forall_impl; [|exact Hpts]. intros p Hp. cbn in *. lia. }
    rewrite Hy, Hx. cbn [bind].
    apply mapM_Ok_length in Hy, Hx.
    destruct (entry_coordinates item) as [|p b]; [now contradiction Hne|].
    destruct ys as [|y ys]; [discriminate|].
    destruct xs as [|x xs]; [discriminate|].
    cbn [length py_div_len bind]. eexists. reflexivity.
Qed.

Lemma add_centroid_fields (item : Entry) (it : Item) :
  add_centroid item = Ok it ->
  text it = entry_text item /\ coordinates it = entry_coordinates item.
Proof.
  unfold add_centroid. intros H.
  destruct (mapM (fun point : Point => py_index point 1)
                 (entry_coordinates item)) as [ys|]; [|now cbn in H].
  destruct (mapM (fun point : Point => py_index point 0)
                 (entry_coordinates item)) as [xs|]; [|now cbn in H].
  cbn [bind] in H.
  destruct (py_div_len (py_sum ys) (length ys)); [|now cbn in H].
  destruct (py_div_len (py_sum xs) (length xs)); [|now cbn in H].
  cbn [bind] in H. injection H as <-. now split.
Qed.
End ReadingFacts.

(** ** The grouping loop *)

Lemma StronglySorted_snoc (l : list float) (a b : float) :
  StronglySorted float_le (l ++ [a]) -> float_le a b ->
  StronglySorted float_le ((l ++ [a]) ++ [b]).
Proof.
  intros Hs Hab. induction l as [|x l IH]; simpl in *.
  - repeat constructor. exact Hab.
  - inversion Hs as [|x' l' Hs' Hx]; subst.
    constructor; [now apply IH|].
    apply Forall_app. split; [exact Hx|].
    constructor; [|constructor].
    apply Forall_app in Hx. destruct Hx as [_ Hx].
    inversion Hx; subst. eapply float_le_trans; eassumption.
Qed.

Lemma Sorted_snoc (A : Type) (R : A -> A -> Prop) (l : list A) (a b : A) :
  Sorted R (l ++ [a]) -> R a b -> Sorted R ((l ++ [a]) ++ [b]).
Proof.
  intros Hs Hab. induction l as [|x l IH]; simpl in *.
  - repeat constructor. exact Hab.
  - inversion Hs as [|x' l' Hs' Hx]; subst.
    constructor; [now apply IH|].
    destruct l; simpl in *; inversion Hx; subst; now constructor.
Qed.

Section ScanFacts.

Lemma untrace_step (ts : TracedScan) (item : Item) :
  untrace (traced_step ts item) = scan_step (untrace ts) item.
Proof.
  unfold traced_step, scan_step, untrace. cbn [current_avg_y current_row rows].
  destruct (abs (avg_y item - open_anchor ts) <? row_threshold)%float.
  - reflexivity.
  - cbn [closed_rows open_row open_anchor]. now rewrite map_app.
Qed.

Lemma untrace_fold (l : list Item) (ts : TracedScan) :
  untrace (fold_left traced_step l ts) = fold_left scan_step l (untrace ts).
Proof.
  revert ts. induction l as [|x l IH]; intros ts; simpl.
  - reflexivity.
  - now rewrite IH, untrace_step.
Qed.

Lemma untrace_rows (ts : TracedScan) :
  match current_row (untrace ts) with
  | [] => rows (untrace ts)
  | _ :: _ => rows (untrace ts) ++ [emit_row (current_row (untrace ts))]
  end = map row_cells (traced_rows ts).
Proof.
  unfold traced_rows, untrace. cbn [current_row rows].
  destruct (open_row ts); [reflexivity|]. now rewrite map_app.
Qed.

(** Whatever the numbers are, the rows hold the items scanned, in the
    order of the scan. *)
Lemma traced_step_items (ts : TracedScan) (item : Item) :
  concat (map scanned (closed_rows (traced_step ts item)))
  ++ open_row (traced_step ts item)
  = (concat (map scanned (closed_rows ts)) ++ open_row ts) ++ [item].
Proof.
  unfold traced_step.
  destruct (abs (avg_y item - open_anchor ts) <? row_threshold)%float;
    cbn [closed_rows open_row].
  - now rewrite app_assoc.
  - rewrite map_app, concat_app. cbn [map concat scanned].
    now rewrite app_nil_r.
Qed.

Lemma traced_fold_items (l : list Item) (ts : TracedScan) :
  concat (map scanned (closed_rows (fold_left traced_step l ts)))
  ++ open_row (fold_left traced_step l ts)
  = (concat (map scanned (closed_rows ts)) ++ open_row ts) ++ l.
Proof.
  revert ts. induction l as [|x l IH]; intros ts; cbn [fold_left].
  - now rewrite app_nil_r.
  - rewrite IH, traced_step_items, <- app_assoc. reflexivity.
Qed.

Lemma traced_rows_items (ts : TracedScan) :
  concat (map scanned (traced_rows ts))
  = concat (map scanned (closed_rows ts)) ++ open_row ts.
Proof.
  unfold traced_rows. destruct (open_row ts) as [|x r].
  - now rewrite app_nil_r.
  - rewrite map_app, concat_app. cbn [map concat scanned].
    now rewrite app_nil_r.
Qed.

(** One turn of the loop keeps the invariant, provided the item has a
    finite [avg_y] and is not above the anchor of the open row. *)
Lemma traced_step_inv (done : list Item) (ts : TracedScan) (item : Item) :
  scan_inv done ts ->
  float_le (open_anchor ts) (avg_y item) ->
  is_finite (avg_y item) = true ->
  scan_inv (done ++ [item]) (traced_step ts item).
Proof.
  intros [Hitems Hclosed Hopen Hnc Hno Hanch Hapart] Hle Hfin.
  pose proof (traced_step_items ts item) as Hstep. rewrite Hitems in Hstep.
  revert Hstep. unfold traced_step.
  destruct (abs (avg_y item - open_anchor ts) <? row_threshold)%float eqn:E;
    intros Hstep.
  - constructor; cbn [closed_rows open_row open_anchor].
    + exact Hstep.
    + exact Hclosed.
    + unfold anchored in *. cbn [scanned anchor] in *.
      destruct (open_row ts); [contradiction|exact Hopen].
    + exact Hnc.
    + unfold within_threshold in *. cbn [scanned anchor] in *.
      apply Forall_app. split; [exact Hno|].
      constructor; [exact E|constructor].
    + exact Hanch.
    + exact Hapart.
  - constructor; cbn [closed_rows open_row open_anchor].
    + exact Hstep.
    + apply Forall_app. split; [exact Hclosed|]. now constructor.
    + reflexivity.
    + apply Forall_app. split; [exact Hnc|]. now constructor.
    + unfold within_threshold. cbn [scanned anchor].
      constructor; [|constructor]. now apply near_self.
    + rewrite map_app. cbn [map anchor].
      now apply StronglySorted_snoc.
    + rewrite map_app. cbn [map anchor].
      now apply Sorted_snoc.
Qed.

Lemma traced_step_anchor_le (ts : TracedScan) (item x : Item) :
  float_le (open_anchor ts) (avg_y item) -> float_le (avg_y item) (avg_y x) ->
  float_le (open_anchor (traced_step ts item)) (avg_y x).
Proof.
  intros H1 H2. unfold traced_step.
  destruct (abs (avg_y item - open_anchor ts) <? row_threshold)%float;
    cbn [open_anchor]; [eapply float_le_trans; eassumption | exact H2].
Qed.

Lemma traced_fold_inv (l done : list Item) (ts : TracedScan) :
  scan_inv done ts ->
  StronglySorted (le_key avg_y) l ->
  Forall (fun x => float_le (open_anchor ts) (avg_y x)) l ->
  finite_y l ->
  scan_inv (done ++ l) (fold_left traced_step l ts).
Proof.
  revert done ts. induction l as [|x l IH]; intros done ts Hinv Hs Hge Hfin.
  - now rewrite app_nil_r.
  - cbn [fold_left].
    inversion Hs as [|x' l' Hs' Hx]; subst.
    inversion Hge as [|x' l' Hx0 Hge']; subst.
    inversion Hfin as [|x' l' Hfx Hfl]; subst.
    replace (done ++ x :: l) with ((done ++ [x]) ++ l)
      by now rewrite <- app_assoc.
    apply IH.
    + now apply traced_step_inv.
    + exact Hs'.
    + rewrite Forall_forall in *. intros z Hz.
      apply traced_step_anchor_le; [exact Hx0 | now apply Hx].
    + exact Hfl.
Qed.

(** The first turn of the loop opens the first row, when the first item has
    a finite [avg_y]; otherwise it closes the empty row. *)
Lemma traced_first_step (first : Item) :
  is_finite (avg_y first) = true ->
  traced_step (mkTracedScan [] [] (avg_y first)) first
  = mkTracedScan [] [first] (avg_y first).
Proof.
  intros Hfin. unfold traced_step. cbn [open_anchor closed_rows open_row].
  now rewrite (self_near _ Hfin).
Qed.

Lemma first_row_inv (first : Item) :
  is_finite (avg_y first) = true ->
  scan_inv [first] (mkTracedScan [] [first] (avg_y first)).
Proof.
  intros Hfin.
  constructor; cbn [closed_rows open_row open_anchor map concat app].
  - reflexivity.
  - constructor.
  - reflexivity.
  - constructor.
  - constructor; [|constructor]. now apply near_self.
  - repeat constructor.
  - repeat constructor.
Qed.

(** The whole loop over a non-empty list of finite keys in their order. *)
Lemma traced_scan_inv (first : Item) (l : list Item) :
  StronglySorted (le_key avg_y) (first :: l) ->
  finite_y (first :: l) ->
  scan_inv (first :: l)
           (fold_left traced_step (first :: l)
                      (mkTracedScan [] [] (avg_y first))).
Proof.
  intros Hs Hfin. cbn [fold_left].
  inversion Hfin as [|x' l' Hf Hfl]; subst.
  rewrite (traced_first_step _ Hf).
  inversion Hs as [|x' l' Hs' Hx]; subst.
  apply (traced_fold_inv (done := [first])).
  - now apply first_row_inv.
  - exact Hs'.
  - exact Hx.
  - exact Hfl.
Qed.

Lemma scan_inv_rows (done : list Item) (ts : TracedScan) :
  scan_inv done ts ->
  concat (map scanned (traced_rows ts)) = done
  /\ Forall anchored (traced_rows ts)
  /\ Forall within_threshold (traced_rows ts)
  /\ StronglySorted float_le (map anchor (traced_rows ts))
  /\ Sorted threshold_apart (map anchor (traced_rows ts)).
Proof.
  intros [Hitems Hclosed Hopen Hnc Hno Hanch Hapart].
  rewrite traced_rows_items. unfold traced_rows.
  destruct (open_row ts) as [|x r] eqn:E; [contradiction|].
  repeat split.
  - exact Hitems.
  - apply Forall_app. split; [exact Hclosed|]. now constructor.
  - apply Forall_app. split; [exact Hnc|]. now constructor.
  - now rewrite map_app.
  - now rewrite map_app.
Qed.
End ScanFacts.

(** ** The whole of [group_text_into_rows] *)

Lemma add_centroid_all_fields (entries : list Entry) (items : list Item) :
  mapM add_centroid entries = Ok items ->
  map text items = map entry_text entries
  /\ map coordinates items = map entry_coordinates entries.
Proof.
  intros H. apply mapM_Ok_Forall2 in H.
  induction H as [|e it entries items He _ [IHt IHc]]; [now split|].
  apply add_centroid_fields in He. destruct He as [Ht Hc].
  cbn [map]. now rewrite Ht, Hc, IHt, IHc.
Qed.

Lemma row_cells_perm (tr : list TracedRow) :
  Permutation (concat (map row_cells tr)) (map text (concat (map scanned tr))).
Proof.
  induction tr as [|r tr IH]; cbn [map concat]; [reflexivity|].
  rewrite map_app. apply Permutation_app; [|exact IH].
  unfold row_cells, emitted. apply Permutation_map, sort_by_perm.
Qed.

Section GroupFacts.
Variable Image : Type.
Implicit Type self : TextExtractor Image.

(** The function as it is written is the traced loop with the history
    forgotten. *)
Lemma group_text_into_rows_traced self :
  group_text_into_rows self
  = (tr <- group_rows_traced self ;; Ok (map row_cells tr)).
Proof.
  unfold group_text_into_rows, group_rows_traced, sorted_items.
  destruct (organize_text_data self) as [entries|e]; [|reflexivity].
  cbn [bind].
  destruct (mapM add_centroid entries) as [items|e]; [|reflexivity].
  cbn [bind].
  destruct (py_index (sort_by avg_y items) 0) as [first|e]; [|reflexivity].
  cbn [bind]. f_equal.
  rewrite <- untrace_rows, untrace_fold. reflexivity.
Qed.

Lemma sorted_items_inv self (l : list Item) :
  sorted_items self = Ok l ->
  exists items,
    l = sort_by avg_y items
    /\ map text items
       = map snd (combine (bounding_boxes self) (detected_texts self))
    /\ map coordinates items = bounding_boxes self
    /\ (length (bounding_boxes self) <= length (detected_texts self))%nat.
Proof.
  unfold sorted_items. intros H.
  destruct (organize_text_data self) as [entries|e] eqn:Eo; [|discriminate].
  cbn [bind] in H.
  destruct (mapM add_centroid entries) as [items|e] eqn:Em; [|discriminate].
  cbn [bind] in H. injection H as <-.
  pose proof (organize_text_data_inv _ Eo) as Hlen.
  rewrite (organize_text_data_Ok _ Hlen) in Eo. injection Eo as <-.
  apply add_centroid_all_fields in Em. destruct Em as [Ht Hc].
  exists items. repeat split.
  - rewrite Ht, map_map. reflexivity.
  - rewrite Hc, map_map. cbn [entry_coordinates].
    now apply map_fst_combine_le.
  - exact Hlen.
Qed.

(** Without a NaN among the keys the items come in the order of [avg_y]. *)
Lemma sorted_items_sorted self (l : list Item) :
  sorted_items self = Ok l ->
  Forall (fun x => is_nan (avg_y x) = false) l ->
  StronglySorted (le_key avg_y) l.
Proof.
  intros H Hn. apply sorted_items_inv in H. destruct H as (items & -> & _).
  apply sort_by_sorted.
  eapply Permutation_Forall; [|exact Hn]. apply sort_by_perm.
Qed.

Lemma finite_y_not_nan (l : list Item) :
  finite_y l -> Forall (fun x => is_nan (avg_y x) = false) l.
Proof.
  apply Forall_impl. intros x. apply is_finite_not_nan.
Qed.

(** The rows of the traced loop hold the sorted items, whatever the
    numbers are. *)
Lemma group_rows_traced_items self (tr : list TracedRow) :
  group_rows_traced self = Ok tr ->
  exists l,
    sorted_items self = Ok l /\ l <> [] /\ concat (map scanned tr) = l.
Proof.
  unfold group_rows_traced. intros H.
  destruct (sorted_items self) as [l|e] eqn:El; [|discriminate].
  cbn [bind] in H.
  destruct l as [|first l]; [discriminate|].
  cbn [py_index nth_error bind] in H. injection H as <-.
  exists (first :: l). split; [reflexivity|]. split; [discriminate|].
  rewrite traced_rows_items, traced_fold_items, traced_step_items.
  reflexivity.
Qed.

(** With finite keys every row is anchored, and so on. *)
Lemma group_rows_traced_spec self (tr : list TracedRow) (l : list Item) :
  group_rows_traced self = Ok tr ->
  sorted_items self = Ok l ->
  finite_y l ->
  l <> []
  /\ concat (map scanned tr) = l
  /\ Forall anchored tr
  /\ Forall within_threshold tr
  /\ StronglySorted float_le (map anchor tr)
  /\ Sorted threshold_apart (map anchor tr).
Proof.
  unfold group_rows_traced. intros H Hl Hfin. rewrite Hl in H.
  cbn [bind] in H.
  destruct l as [|first l]; [discriminate|].
  cbn [py_index nth_error bind] in H. injection H as <-.
  split; [discriminate|].
  apply scan_inv_rows, traced_scan_inv; [|exact Hfin].
  apply (sorted_items_sorted _ Hl), finite_y_not_nan, Hfin.
Qed.

Lemma group_text_into_rows_inv self (rows : list (list string)) :
  group_text_into_rows self = Ok rows ->
  exists tr, group_rows_traced self = Ok tr /\ rows = map row_cells tr.
Proof.
  rewrite group_text_into_rows_traced. intros H.
  destruct (group_rows_traced self) as [tr|e]; [|discriminate].
  cbn [bind] in H. injection H as <-. now exists tr.
Qed.

(** Exactly the well-formed inputs are grouped without an exception. *)
Lemma sorted_items_Ok_iff self :
  (exists l, sorted_items self = Ok l)
  <-> (length (bounding_boxes self) <= length (detected_texts self))%nat
      /\ forallb well_formed_box (bounding_boxes self) = true.
Proof.
  split.
  - intros [l H]. unfold sorted_items in H.
    destruct (organize_text_data self) as [entries|e] eqn:Eo; [|discriminate].
    cbn [bind] in H.
    destruct (mapM add_centroid entries) as [items|e] eqn:Em; [|discriminate].
    pose proof (organize_text_data_inv _ Eo) as Hlen.
    split; [exact Hlen|].
    rewrite (organize_text_data_Ok _ Hlen) in Eo. injection Eo as <-.
    assert (Hall : exists bs, mapM add_centroid
              (map (fun p => mkEntry (fst p) (snd p))
                   (combine (bounding_boxes self) (detected_texts self)))
              = Ok bs) by now exists items.
    apply mapM_Ok_iff in Hall. rewrite Forall_forall in Hall.
    apply forallb_forall. intros b Hb.
    rewrite <- (map_fst_combine_le _ _ Hlen) in Hb.
    apply in_map_iff in Hb. destruct Hb as [[b' t] [<- Hin]].
    apply (add_centroid_Ok_iff (mkEntry b' t)), Hall.
    apply in_map_iff. now exists (b', t).
  - intros [Hlen Hwf]. unfold sorted_items.
    rewrite (organize_text_data_Ok _ Hlen). cbn [bind].
    destruct (proj2 (mapM_Ok_iff add_centroid
                (map (fun p => mkEntry (fst p) (snd p))
                     (combine (bounding_boxes self) (detected_texts self)))))
      as [items Hitems].
    + rewrite Forall_forall. intros e He.
      apply in_map_iff in He. destruct He as [[b t] [<- Hin]].
      apply add_centroid_Ok_iff. cbn [entry_coordinates fst].
      rewrite forallb_forall in Hwf. apply Hwf.
      eapply in_combine_l, Hin.
    + rewrite Hitems. cbn [bind]. eexists. reflexivity.
Qed.

Lemma sorted_items_length self (l : list Item) :
  sorted_items self = Ok l -> length l = length (bounding_boxes self).
Proof.
  intros H. apply sorted_items_inv in H.
  destruct H as (items & -> & _ & Hc & _).
  rewrite sort_by_length, <- Hc at 1. now rewrite length_map.
Qed.

Lemma group_rows_traced_Ok_iff self :
  (exists tr, group_rows_traced self = Ok tr)
  <-> well_formed_input self = true.
Proof.
  unfold well_formed_input, group_rows_traced. split.
  - intros [tr H].
    destruct (sorted_items self) as [l|e] eqn:El; [|discriminate].
    cbn [bind] in H. pose proof (sorted_items_length _ El) as Hlen.
    assert (Hex : exists l, sorted_items self = Ok l) by now exists l.
    apply sorted_items_Ok_iff in Hex. destruct Hex as [Hle Hwf].
    destruct (bounding_boxes self) as [|b bs] eqn:Eb.
    + destruct l; [discriminate H | discriminate Hlen].
    + rewrite Hwf, andb_true_r. now apply Nat.leb_le.
  - intros H.
    destruct (bounding_boxes self) as [|b bs] eqn:Eb; [discriminate|].
    apply andb_true_iff in H. destruct H as [Hle Hwf].
    apply Nat.leb_le in Hle.
    destruct (proj2 (sorted_items_Ok_iff self)) as [l Hl].
    { rewrite Eb. now split. }
    pose proof (sorted_items_length _ Hl) as Hlen. rewrite Eb in Hlen.
    rewrite Hl. cbn [bind].
    destruct l as [|first l]; [discriminate|].
    cbn [py_index nth_error bind]. eexists. reflexivity.
Qed.
End GroupFacts.

(** ** Inputs of two items *)

Lemma scan_first_step (a : Item) :
  is_finite (avg_y a) = true ->
  scan_step (mkScan [] [] (avg_y a)) a = mkScan [] [a] (avg_y a).
Proof.
  intros Hfin. unfold scan_step. cbn [current_avg_y current_row rows app].
  now rewrite (self_near _ Hfin).
Qed.

Lemma scan_two (a b : Item) :
  is_finite (avg_y a) = true ->
  fold_left scan_step [a; b] (mkScan [] [] (avg_y a))
  = if near (avg_y b) (avg_y a)
    then mkScan [] [a; b] (avg_y a)
    else mkScan [emit_row [a]] [b] (avg_y b).
Proof.
  intros Hfin. cbn [fold_left]. rewrite (scan_first_step _ Hfin).
  unfold scan_step, near. cbn [current_avg_y current_row rows app].
  reflexivity.
Qed.

Section TwoItems.
Variable Image : Type.
Variable self : TextExtractor Image.
Variables b1 b2 : BBox.
Variables t1 t2 : string.
Variables i1 i2 : Item.
Hypothesis Hboxes : bounding_boxes self = [b1; b2].
Hypothesis Htexts : detected_texts self = [t1; t2].
Hypothesis Hi1 : add_centroid (mkEntry b1 t1) = Ok i1.
Hypothesis Hi2 : add_centroid (mkEntry b2 t2) = Ok i2.

Lemma two_items_texts : text i1 = t1 /\ text i2 = t2.
Proof.
  split; [apply (add_centroid_fields _ Hi1) | apply (add_centroid_fields _ Hi2)].
Qed.

Lemma group_two_items :
  is_finite (avg_y i1) = true -> is_finite (avg_y i2) = true ->
  group_text_into_rows self
  = Ok (let (a, b) := if (avg_y i2 <? avg_y i1)%float
                      then (i2, i1) else (i1, i2) in
        if near (avg_y i1) (avg_y i2)
        then [emit_row [a; b]]
        else [[text a]; [text b]]).
Proof.
  intros Hf1 Hf2.
  unfold group_text_into_rows, organize_text_data.
  rewrite Hboxes, Htexts.
  cbn [length seq mapM py_index nth_error bind].
  rewrite Hi1, Hi2. cbn [bind sort_by insert_by].
  destruct (avg_y i2 <? avg_y i1)%float;
    cbn [py_index nth_error bind]; rewrite scan_two by assumption.
  - destruct (near (avg_y i1) (avg_y i2)); reflexivity.
  - rewrite (near_sym (avg_y i2) (avg_y i1)).
    destruct (near (avg_y i1) (avg_y i2)); reflexivity.
Qed.


Lemma two_items_far :
  is_finite (avg_y i1) = true -> is_finite (avg_y i2) = true ->
  near (avg_y i1) (avg_y i2) = false ->
  group_text_into_rows self
  = Ok (if (avg_y i2 <? avg_y i1)%float then [[t2]; [t1]] else [[t1]; [t2]]).
Proof.
  intros Hf1 Hf2 H. rewrite (group_two_items Hf1 Hf2), H.
  destruct two_items_texts as [<- <-].
  now destruct (avg_y i2 <? avg_y i1)%float.
Qed.
End TwoItems.

(** ** Annotation of the recognised text *)

Lemma group_text_into_rows_frame (Image : Type) (s1 s2 : TextExtractor Image) :
  bounding_boxes s1 = bounding_boxes s2 ->
  detected_texts s1 = detected_texts s2 ->
  group_text_into_rows s1 = group_text_into_rows s2.
Proof.
  intros Hb Ht. unfold group_text_into_rows, organize_text_data.
  now rewrite Hb, Ht.
Qed.

Section AnnotationFacts.
Variable Image : Type.
Variable cv2_line : Image -> list Z -> list Z -> Result Image.
Implicit Type self : TextExtractor Image.

Lemma draw_segments_frame (bbox : list (list Z)) (idxs : list nat) self :
  bounding_boxes (snd (draw_segments cv2_line bbox idxs self))
  = bounding_boxes self
  /\ detected_texts (snd (draw_segments cv2_line bbox idxs self))
     = detected_texts self.
Proof.
  revert self. induction idxs as [|i idxs IH]; intros self; cbn [draw_segments].
  - now split.
  - destruct (py_index bbox i) as [start|e]; [|now split].
    destruct (py_index bbox ((i + 1) mod length bbox)) as [stop|e];
      [|now split].
    destruct (cv2_line (source_image self) start stop) as [img|e];
      [|now split].
    apply (IH (set_source_image img self)).
Qed.

Lemma draw_bounding_box_frame (bbox : BBox) self :
  bounding_boxes (snd (draw_bounding_box cv2_line bbox self))
  = bounding_boxes self
  /\ detected_texts (snd (draw_bounding_box cv2_line bbox self))
     = detected_texts self.
Proof.
  unfold draw_bounding_box.
  destruct (mapM (fun point : Point => mapM py_int point) bbox) as [pts|e];
    [|now split].
  pose proof (draw_segments_frame pts (seq 0 (length pts)) self) as H.
  destruct (draw_segments cv2_line _ _ self) as [[u|e] self']; exact H.
Qed.

Lemma annotate_boxes_frame (boxes : list BBox) self :
  bounding_boxes (snd (annotate_boxes cv2_line boxes self))
  = bounding_boxes self
  /\ detected_texts (snd (annotate_boxes cv2_line boxes self))
     = detected_texts self.
Proof.
  revert self. induction boxes as [|bbox boxes IH]; intros self;
    cbn [annotate_boxes].
  - now split.
  - pose proof (draw_bounding_box_frame bbox self) as [Hb Ht].
    destruct (draw_bounding_box cv2_line bbox self) as [[img|e] self'];
      cbn [snd] in *.
    + destruct (IH self') as [Hb' Ht']. split; congruence.
    + now split.
Qed.
End AnnotationFacts.

(** ** The table detector *)

Section TableFacts.
Import TableProcessor.
Variable Image : Type.
Variable predict : Image -> list Detection.
Variable cv2_rectangle : Image -> Z * Z -> Z * Z -> Image.
Implicit Type s : State Image.

Lemma prepend_reset s :
  prepend (detected_tables (self s)) (snd (reset s)) = s.
Proof.
  destruct s as [f a [T r]]. unfold prepend, reset.
  cbn [snd files arrays self detected_tables source_image].
  now rewrite app_nil_r.
Qed.

(** *** Computations that do not look at the detected tables *)

Lemma blind_ret (A : Type) (a : A) : blind_to_tables (ret (Image := Image) a).
Proof. intros T s. reflexivity. Qed.

Lemma blind_lift (A : Type) (r : Result A) :
  blind_to_tables (lift (Image := Image) r).
Proof. intros T s. reflexivity. Qed.

Lemma blind_bind (A B : Type) (m : M Image A) (k : A -> M Image B) :
  blind_to_tables m -> (forall a, blind_to_tables (k a)) ->
  blind_to_tables (bindS m k).
Proof.
  intros Hm Hk T s. unfold bindS. rewrite Hm.
  destruct (m s) as [[a|e] s']; cbn [fst snd]; [apply Hk | reflexivity].
Qed.

Lemma blind_for_each (A : Type) (l : list A) (body : A -> M Image unit) :
  (forall a, blind_to_tables (body a)) -> blind_to_tables (for_each l body).
Proof.
  intros Hb. induction l as [|a l IH]; cbn [for_each].
  - apply blind_ret.
  - apply blind_bind; [apply Hb | intros _; exact IH].
Qed.

Lemma blind_get_source_image : blind_to_tables (get_source_image (Image := Image)).
Proof.
  intros T [f a [tables [r|]]]; reflexivity.
Qed.

Lemma blind_draw_rectangle (r : nat) (p q : Z * Z) :
  blind_to_tables (draw_rectangle cv2_rectangle r p q).
Proof. intros T s. reflexivity. Qed.

Lemma blind_append_table (v : View) :
  blind_to_tables (append_table (Image := Image) v).
Proof.
  intros T s. unfold append_table, prepend.
  cbn [fst snd files arrays self detected_tables source_image].
  now rewrite app_assoc.
Qed.

Lemma blind_annotate_box (table_box : Box) :
  blind_to_tables (annotate_box cv2_rectangle table_box).
Proof.
  unfold annotate_box.
  apply blind_bind; [apply blind_lift|]. intros bbox_coords.
  apply blind_bind; [apply blind_lift|]. intros [[[x_min y_min] x_max] y_max].
  apply blind_bind; [apply blind_get_source_image|]. intros img.
  apply blind_bind; [apply blind_draw_rectangle|]. intros _.
  apply blind_bind; [apply blind_get_source_image|]. intros img'.
  apply blind_append_table.
Qed.

Lemma blind_annotate_image (detections : list Detection) :
  blind_to_tables (annotate_image cv2_rectangle detections).
Proof.
  unfold annotate_image. apply blind_for_each. intros detection.
  apply blind_for_each. apply blind_annotate_box.
Qed.

Lemma blind_save_processed_image (save_path : string) :
  blind_to_tables (save_processed_image (Image := Image) save_path).
Proof.
  unfold save_processed_image.
  apply blind_bind; [apply blind_get_source_image|]. intros img T s.
  reflexivity.
Qed.

Lemma blind_load_and_predict (image_path : string) :
  blind_to_tables (load_and_predict predict image_path).
Proof.
  intros T [f a [tables r]]. unfold load_and_predict, prepend.
  cbn [files arrays self detected_tables source_image].
  now destruct (f image_path).
Qed.

(** [execute] returns the tables in front followed by what it returns
    without them. *)
Lemma execute_prepend (img_path : string) (T : list View) s :
  execute predict cv2_rectangle img_path (prepend T s)
  = (match fst (execute predict cv2_rectangle img_path s) with
     | Ok crops => Ok (T ++ crops)
     | Raise e => Raise e
     end,
     prepend T (snd (execute predict cv2_rectangle img_path s))).
Proof.
  unfold execute.
  set (body := bindS (load_and_predict predict img_path)
                     (fun results =>
                        bindS (annotate_image cv2_rectangle results)
                              (fun _ => save_processed_image
                                          "processed_output.png"))).
  assert (Hbody : blind_to_tables body).
  { apply blind_bind; [apply blind_load_and_predict|]. intros results.
    apply blind_bind; [apply blind_annotate_image|]. intros _.
    apply blind_save_processed_image. }
  assert (Hsplit : forall s0,
             bindS (load_and_predict predict img_path)
               (fun results =>
                  bindS (annotate_image cv2_rectangle results)
                    (fun _ =>
                       bindS (save_processed_image "processed_output.png")
                             (fun _ => @get_detected_tables Image))) s0
             = bindS body (fun _ => @get_detected_tables Image) s0).
  { intros s0. unfold body, bindS.
    destruct (load_and_predict predict img_path s0) as [[results|e] s1];
      [|reflexivity].
    destruct (annotate_image cv2_rectangle results s1) as [[u|e] s2];
      reflexivity. }
  rewrite !Hsplit. unfold bindS at 1 2 3. rewrite Hbody.
  destruct (body s) as [[u|e] s']; reflexivity.
Qed.

(** [load_and_predict] sets [source_image] anew: what it was before
    plays no part. *)
Lemma execute_forgets_source_image (img_path : string) s1 s2 :
  files s1 = files s2 -> arrays s1 = arrays s2 ->
  detected_tables (self s1) = detected_tables (self s2) ->
  fst (execute predict cv2_rectangle img_path s1)
  = fst (execute predict cv2_rectangle img_path s2).
Proof.
  intros Hf Ha Ht.
  assert (Hload : (exists e, load_and_predict predict img_path s1 = (Raise e, s1)
                             /\ load_and_predict predict img_path s2
                                = (Raise e, s2))
                  \/ load_and_predict predict img_path s1
                     = load_and_predict predict img_path s2).
  { unfold load_and_predict. rewrite Hf, Ha, Ht.
    destruct (files s2 img_path); [now right | left].
    now exists FileNotFoundError. }
  unfold execute, bindS.
  destruct Hload as [(e & H1 & H2) | H].
  - now rewrite H1, H2.
  - now rewrite H.
Qed.

(** *** Where the new views point *)

Lemma appended_refl (r : nat) s : appended r s s.
Proof.
  split; [reflexivity|]. exists []. now rewrite app_nil_r.
Qed.

Lemma appended_trans (r : nat) s1 s2 s3 :
  appended r s1 s2 -> appended r s2 s3 -> appended r s1 s3.
Proof.
  intros [Hs12 (e12 & Ht12 & Hb12)] [Hs23 (e23 & Ht23 & Hb23)]. split.
  - congruence.
  - exists (e12 ++ e23). split.
    + now rewrite Ht23, Ht12, app_assoc.
    + apply Forall_app. now split.
Qed.

Lemma annotate_box_appended (r : nat) (table_box : Box) s :
  source_image (self s) = Some r ->
  appended r s (snd (annotate_box cv2_rectangle table_box s)).
Proof.
  destruct s as [f a [tables src]]. cbn [self source_image].
  intros ->. unfold annotate_box, bindS, lift.
  destruct (py_index (xyxy table_box) 0) as [bbox_coords|e];
    [|apply appended_refl].
  destruct (unpack4_int bbox_coords)
    as [[[[x_min y_min] x_max] y_max]|e]; [|apply appended_refl].
  cbn. split; [reflexivity|].
  eexists. split; [reflexivity|]. now repeat constructor.
Qed.

Lemma for_each_appended (A : Type) (r : nat) (body : A -> M Image unit)
      (l : list A) :
  (forall a s, source_image (self s) = Some r ->
               appended r s (snd (body a s))) ->
  forall s, source_image (self s) = Some r ->
            appended r s (snd (for_each l body s)).
Proof.
  intros Hbody. induction l as [|a l IH]; intros s Hs; cbn [for_each].
  - apply appended_refl.
  - unfold bindS. pose proof (Hbody a s Hs) as Ha.
    destruct (body a s) as [[u|e] s1]; cbn [snd] in *; [|exact Ha].
    eapply appended_trans; [exact Ha|]. apply IH.
    destruct Ha as [Hsrc _]. congruence.
Qed.

Lemma annotate_image_appended (r : nat) (detections : list Detection) s :
  source_image (self s) = Some r ->
  appended r s (snd (annotate_image cv2_rectangle detections s)).
Proof.
  unfold annotate_image. revert s. apply for_each_appended.
  intros detection. apply for_each_appended.
  intros table_box s. apply annotate_box_appended.
Qed.

Lemma save_processed_image_tables (save_path : string) s :
  self (snd (save_processed_image save_path s)) = self s.
Proof.
  destruct s as [f a [tables [r|]]]; reflexivity.
Qed.

(** What [execute] returns is what the instance holds afterwards: the
    tables held before, followed by views of the array just read. *)
Lemma execute_returns (img_path : string) s (res : list View) s' :
  execute predict cv2_rectangle img_path s = (Ok res, s') ->
  detected_tables (self s') = res
  /\ exists crops,
       res = detected_tables (self s) ++ crops
       /\ Forall (fun v => view_base v = length (arrays s)) crops.
Proof.
  unfold execute, bindS at 1. unfold load_and_predict.
  destruct (files s img_path) as [input_image|]; [|discriminate].
  set (s1 := mkState _ _ _).
  assert (Hsrc : source_image (self s1) = Some (length (arrays s)))
    by reflexivity.
  pose proof (annotate_image_appended (predict input_image) s1 Hsrc) as Happ.
  unfold bindS at 1.
  destruct (annotate_image cv2_rectangle (predict input_image) s1)
    as [[u|e] s2]; [|discriminate].
  cbn [snd] in Happ. unfold bindS at 1.
  pose proof (save_processed_image_tables "processed_output.png" s2) as Hsave.
  destruct (save_processed_image "processed_output.png" s2)
    as [[u'|e] s3]; [|discriminate].
  cbn [snd] in Hsave. unfold get_detected_tables. intros [= <- <-].
  split; [reflexivity|]. rewrite Hsave.
  destruct Happ as [_ (crops & Ht & Hb)]. exists crops. now split.
Qed.
End TableFacts.

(** ** What [group_text_into_rows] returns and raises *)

Lemma nth_error_combine (A B : Type) (l : list A) (l' : list B) (i : nat) :
  nth_error (combine l l') i
  = match nth_error l i, nth_error l' i with
    | Some a, Some b => Some (a, b)
    | _, _ => None
    end.
Proof.
  revert l' i. induction l as [|a l IH]; intros [|b l'] [|i]; cbn;
    try reflexivity.
  - now destruct (nth_error l i).
  - apply IH.
Qed.

(** On a well-formed input the rows hold the texts of the boxes, each as
    often as it occurs. *)
Lemma group_text_into_rows_cells (Image : Type) (self : TextExtractor Image) :
  well_formed_input self = true ->
  exists rows,
    group_text_into_rows self = Ok rows
    /\ Permutation (concat rows)
                   (map snd (combine (bounding_boxes self) (detected_texts self))).
Proof.
  intros Hwf.
  apply group_rows_traced_Ok_iff in Hwf. destruct Hwf as [tr Htr].
  exists (map row_cells tr). split.
  - rewrite group_text_into_rows_traced, Htr. reflexivity.
  - destruct (group_rows_traced_items _ Htr) as (l & Hl & _ & Hconcat).
    destruct (sorted_items_inv _ Hl) as (items & -> & Ht & _).
    rewrite row_cells_perm, Hconcat.
    now rewrite (Permutation_map text (sort_by_perm avg_y items)), Ht.
Qed.

Lemma organize_text_data_Raise (Image : Type) (self : TextExtractor Image)
      (e : PyError) :
  organize_text_data self = Raise e -> e = IndexError.
Proof.
  unfold organize_text_data. intros H.
  apply mapM_Raise_inv in H. destruct H as (i & _ & Hi).
  destruct (py_index (bounding_boxes self) i) as [c|e1] eqn:Ec;
    cbn [bind] in Hi.
  - destruct (py_index (detected_texts self) i) as [t|e2] eqn:Et;
      cbn [bind] in Hi; [discriminate|].
    injection Hi as <-. now apply py_index_Raise in Et.
  - injection Hi as <-. now apply py_index_Raise in Ec.
Qed.

Lemma mapM_coordinate_Raise (k : nat) (b : BBox) (e : PyError) :
  mapM (fun point : Point => py_index point k) b = Raise e -> e = IndexError.
Proof.
  intros H. apply mapM_Raise_inv in H. destruct H as (p & _ & Hp).
  now apply py_index_Raise in Hp.
Qed.

Lemma py_div_len_Raise (a : float) (n : nat) (e : PyError) :
  py_div_len a n = Raise e -> e = ZeroDivisionError.
Proof. destruct n; cbn; now intros [= <-]. Qed.

(** The centroid is the mean of the points that are there, however many. *)
Lemma add_centroid_means (b : BBox) (t : string) (item : Item) :
  add_centroid (mkEntry b t) = Ok item ->
  exists ys xs,
    mapM (fun point : Point => py_index point 1) b = Ok ys
    /\ mapM (fun point : Point => py_index point 0) b = Ok xs
    /\ length ys = length b /\ length xs = length b
    /\ avg_y item = (py_sum ys / py_float_of_nat (length b))%float
    /\ avg_x item = (py_sum xs / py_float_of_nat (length b))%float.
Proof.
  unfold add_centroid. cbn [entry_coordinates entry_text]. intros H.
  destruct (mapM (fun point : Point => py_index point 1) b) as [ys|] eqn:Ey;
    [|now cbn in H].
  destruct (mapM (fun point : Point => py_index point 0) b) as [xs|] eqn:Ex;
    [|now cbn in H].
  cbn [bind] in H.
  pose proof (mapM_Ok_length _ _ Ey) as Hly.
  pose proof (mapM_Ok_length _ _ Ex) as Hlx.
  rewrite Hly, Hlx in H.
  destruct (length b) as [|n] eqn:En; [now cbn in H|].
  cbn [py_div_len bind] in H. injection H as <-.
  exists ys, xs. cbn [avg_y avg_x]. now repeat split.
Qed.

Lemma add_centroid_Raise (item : Entry) (e : PyError) :
  add_centroid item = Raise e -> e = IndexError \/ e = ZeroDivisionError.
Proof.
  unfold add_centroid. intros H.
  destruct (mapM (fun point : Point => py_index point 1)
                 (entry_coordinates item)) as [ys|e1] eqn:Ey; cbn [bind] in H;
    [|injection H as <-; left; eapply mapM_coordinate_Raise, Ey].
  destruct (mapM (fun point : Point => py_index point 0)
                 (entry_coordinates item)) as [xs|e1] eqn:Ex; cbn [bind] in H;
    [|injection H as <-; left; eapply mapM_coordinate_Raise, Ex].
  destruct (py_div_len (py_sum ys) (length ys)) as [ay|e1] eqn:Eay;
    cbn [bind] in H;
    [|injection H as <-; right; eapply py_div_len_Raise, Eay].
  destruct (py_div_len (py_sum xs) (length xs)) as [ax|e1] eqn:Eax;
    cbn [bind] in H; [discriminate|].
  injection H as <-. right. eapply py_div_len_Raise, Eax.
Qed.

(** [group_text_into_rows] raises nothing but the errors of an index and of
    a division: it has no error of its own for a shape. *)
Lemma group_text_into_rows_Raise (Image : Type) (self : TextExtractor Image)
      (e : PyError) :
  group_text_into_rows self = Raise e ->
  e = IndexError \/ e = ZeroDivisionError.
Proof.
  unfold group_text_into_rows. intros H.
  destruct (organize_text_data self) as [entries|e1] eqn:Eo; cbn [bind] in H;
    [|injection H as <-; left; eapply organize_text_data_Raise, Eo].
  destruct (mapM add_centroid entries) as [items|e1] eqn:Em; cbn [bind] in H.
  - destruct (py_index (sort_by avg_y items) 0) as [first|e1] eqn:Ef;
      cbn [bind] in H; [discriminate|].
    injection H as <-. left. eapply py_index_Raise, Ef.
  - injection H as <-. apply mapM_Raise_inv in Em.
    destruct Em as (item & _ & Hitem). eapply add_centroid_Raise, Hitem.
Qed.

(** * The claims *)



(** C1.  The claim asks for an empty list of rows on the empty input.  The
    code reads [ocr_results[0]] before the loop: with no bounding box
    [group_text_into_rows] raises [IndexError] and returns nothing. *)
Theorem group_text_into_rows_empty_raises
        (Image : Type) (img : Image) (texts : list string) (confs : list float) :
  group_text_into_rows (mkTextExtractor img [] texts confs) = Raise IndexError.
Proof. reflexivity. Qed.

(** C2.  On a non-empty input of well-formed items, with one text for
    every box, [group_text_into_rows] returns rows; the rows have together
    as many cells as there are items, and the cells are the input texts,
    each as often as it occurs in the input. *)
Theorem group_text_into_rows_complete
        (Image : Type) (self : TextExtractor Image) :
  well_formed_input self = true ->
  length (detected_texts self) = length (bounding_boxes self) ->
  exists rows,
    group_text_into_rows self = Ok rows
    /\ length (concat rows) = length (bounding_boxes self)
    /\ Permutation (concat rows) (detected_texts self).
Proof.
  intros Hwf Hlen.
  destruct (group_text_into_rows_cells _ Hwf) as (rows & Hrows & Hperm).
  rewrite map_snd_combine_eq in Hperm by now symmetry.
  exists rows. repeat split.
  - exact Hrows.
  - rewrite (Permutation_length Hperm). exact Hlen.
  - exact Hperm.
Qed.




(** C6, as the code has it.  [group_text_into_rows] checks no shape.  On a
    well-formed input (a text for every box, a point in every box, two
    coordinates in every point) it returns rows, and for every item,
    whatever the number of points of its quadrilateral, three or two or one
    as well as four, the text of the item is in the rows and the centroid of
    the item is the mean of the points it has. *)
Theorem reconstruction_checks_no_shape
        (Image : Type) (self : TextExtractor Image)
        (k : nat) (b : BBox) (t : string) :
  well_formed_input self = true ->
  nth_error (bounding_boxes self) k = Some b ->
  nth_error (detected_texts self) k = Some t ->
  exists rows item ys xs,
    group_text_into_rows self = Ok rows
    /\ In t (concat rows)
    /\ add_centroid (mkEntry b t) = Ok item
    /\ mapM (fun point : Point => py_index point 1) b = Ok ys
    /\ mapM (fun point : Point => py_index point 0) b = Ok xs
    /\ length ys = length b
    /\ length xs = length b
    /\ avg_y item = (py_sum ys / py_float_of_nat (length b))%float
    /\ avg_x item = (py_sum xs / py_float_of_nat (length b))%float.
Proof.
  intros Hwf Hb Ht.
  destruct (group_text_into_rows_cells _ Hwf) as (rows & Hrows & Hperm).
  assert (Hin : In t (concat rows)).
  { eapply Permutation_in; [symmetry; exact Hperm|].
    apply in_map_iff. exists (b, t). split; [reflexivity|].
    apply (nth_error_In _ k). now rewrite nth_error_combine, Hb, Ht. }
  assert (Hbox : well_formed_box b = true).
  { unfold well_formed_input in Hwf.
    destruct (bounding_boxes self) as [|b0 bs] eqn:Eb;
      [now destruct k|].
    apply andb_true_iff in Hwf. destruct Hwf as [_ Hwf].
    rewrite forallb_forall in Hwf. apply Hwf. eapply nth_error_In, Hb. }
  destruct (proj2 (add_centroid_Ok_iff (mkEntry b t)) Hbox) as [item Hitem].
  destruct (add_centroid_means _ _ Hitem)
    as (ys & xs & Hys & Hxs & Hly & Hlx & Hay & Hax).
  exists rows, item, ys, xs. now repeat split.
Qed.

(** C8.  Drawing changes the image only: after [draw_bounding_box] and
    after [annotate_image], whether they return or raise, the stored
    bounding boxes are the ones stored before, and [group_text_into_rows]
    gives what it gave before. *)
Theorem annotation_keeps_bounding_boxes
        (Image : Type) (cv2_line : Image -> list Z -> list Z -> Result Image)
        (self : TextExtractor Image) :
  (forall bbox,
      bounding_boxes (snd (draw_bounding_box cv2_line bbox self))
      = bounding_boxes self)
  /\ bounding_boxes (snd (annotate_image cv2_line self)) = bounding_boxes self
  /\ group_text_into_rows (snd (annotate_image cv2_line self))
     = group_text_into_rows self.
Proof.
  split; [|split].
  - intros bbox. apply draw_bounding_box_frame.
  - apply annotate_boxes_frame.
  - apply group_text_into_rows_frame; apply annotate_boxes_frame.
Qed.

(** C9.  The detector keeps its tables from one [execute] to the next:
    [execute] returns the tables held before followed by views of the image
    just read.  [reset] empties the list; [execute] after [reset] returns the
    new views only, and the same ones whatever the instance held or pointed
    to before. *)
Theorem reset_clears_detected_tables
        (Image : Type)
        (predict : Image -> list TableProcessor.Detection)
        (cv2_rectangle : Image -> Z * Z -> Z * Z -> Image)
        (s : TableProcessor.State Image) (img_path : string) :
  TableProcessor.detected_tables
    (TableProcessor.self (snd (TableProcessor.reset s))) = []
  /\ (forall res s',
         TableProcessor.execute predict cv2_rectangle img_path s = (Ok res, s') ->
         exists crops,
           fst (TableProcessor.execute predict cv2_rectangle img_path
                                       (snd (TableProcessor.reset s)))
           = Ok crops
           /\ res = TableProcessor.detected_tables (TableProcessor.self s) ++ crops
           /\ TableProcessor.detected_tables (TableProcessor.self s') = res
           /\ Forall (fun v => TableProcessor.view_base v
                               = length (TableProcessor.arrays s)) crops)
  /\ (forall s0,
         TableProcessor.files s0 = TableProcessor.files s ->
         TableProcessor.arrays s0 = TableProcessor.arrays s ->
         fst (TableProcessor.execute predict cv2_rectangle img_path
                                     (snd (TableProcessor.reset s0)))
         = fst (TableProcessor.execute predict cv2_rectangle img_path
                                       (snd (TableProcessor.reset s)))).
Proof.
  split; [reflexivity|]. split.
  - intros res s' H.
    destruct (execute_returns _ _ _ _ H) as [Hheld _].
    rewrite <- (prepend_reset s), execute_prepend in H.
    destruct (TableProcessor.execute predict cv2_rectangle img_path
                                     (snd (TableProcessor.reset s)))
      as [[crops|e] s0] eqn:E; cbn [fst snd] in H; [|discriminate].
    injection H as <- _. exists crops.
    destruct (execute_returns _ _ _ _ E) as [_ (crops' & Hc & Hbase)].
    cbn in Hc. subst crops'. repeat split; try assumption.
  - intros s0 Hf Ha. apply execute_forgets_source_image; cbn; auto.
Qed.

(** C10.  Two items whose [avg_y] are exactly the threshold apart, the
    float [abs(avg_y - avg_y)] being equal to 10, are returned in two rows,
    the upper one first: the comparison with the threshold is strict. *)
Theorem rows_split_at_exact_threshold
        (Image : Type) (self : TextExtractor Image)
        (b1 b2 : BBox) (t1 t2 : string) (i1 i2 : Item) :
  bounding_boxes self = [b1; b2] ->
  detected_texts self = [t1; t2] ->
  add_centroid (mkEntry b1 t1) = Ok i1 ->
  add_centroid (mkEntry b2 t2) = Ok i2 ->
  (abs (avg_y i1 - avg_y i2) =? row_threshold)%float = true ->
  group_text_into_rows self
  = Ok (if (avg_y i2 <? avg_y i1)%float then [[t2]; [t1]] else [[t1]; [t2]]).
Proof.
  intros Hb Ht H1 H2 H.
  destruct (@exact_finite _ _ H) as [Hf1 Hf2].
  apply (two_items_far self Hb Ht H1 H2 Hf1 Hf2).
  apply eqb_ltb_false, H.
Qed.

(** * The claims on the example inputs *)

Open Scope string_scope.

(** C2 on [scenario_a]. *)
Lemma group_text_into_rows_complete_scenario_a :
  exists rows,
    group_text_into_rows scenario_a = Ok rows
    /\ length (concat rows) = length (bounding_boxes scenario_a)
    /\ Permutation (concat rows) (detected_texts scenario_a).
Proof.
  apply (group_text_into_rows_complete scenario_a); reflexivity.
Defined.







(** C6 as the claim has it fails: a quadrilateral of three points is
    accepted and averaged, and no input at all stops the function with an
    error of its own, the only errors being those of an index out of range
    and of a division by zero. *)
Lemma three_points_are_averaged :
  group_text_into_rows scenario_d = Ok [["A"]]
  /\ (exists item,
         sorted_items scenario_d = Ok [item]
         /\ avg_y item = 1%float /\ avg_x item = 4%float)
  /\ forall (Image : Type) (self : TextExtractor Image) (e : PyError),
      group_text_into_rows self = Raise e ->
      e = IndexError \/ e = ZeroDivisionError.
Proof.
  split; [reflexivity|]. split.
  - eexists. repeat split.
  - intros Image self e. apply group_text_into_rows_Raise.
Qed.

(** C6 as amended, on [scenario_d]. *)
Lemma reconstruction_checks_no_shape_scenario_d :
  exists rows item ys xs,
    group_text_into_rows scenario_d = Ok rows
    /\ In "A" (concat rows)
    /\ add_centroid (mkEntry [[0; 0]; [6; 0]; [6; 3]]%float "A") = Ok item
    /\ mapM (fun point : Point => py_index point 1)
            [[0; 0]; [6; 0]; [6; 3]]%float = Ok ys
    /\ mapM (fun point : Point => py_index point 0)
            [[0; 0]; [6; 0]; [6; 3]]%float = Ok xs
    /\ length ys = 3%nat
    /\ length xs = 3%nat
    /\ avg_y item = (py_sum ys / py_float_of_nat 3)%float
    /\ avg_x item = (py_sum xs / py_float_of_nat 3)%float.
Proof.
  apply (@reconstruction_checks_no_shape unit scenario_d 0
           [[0; 0]; [6; 0]; [6; 3]]%float "A"); reflexivity.
Defined.

(** C9 on a detector that has processed a page once already. *)
Lemma reset_clears_detected_tables_second_page :
  (exists crops,
      fst (TableProcessor.execute one_table add_rectangle "page.png"
             (snd (TableProcessor.reset
                     (snd (TableProcessor.execute one_table add_rectangle
                             "page.png" fresh_detector)))))
      = Ok crops
      /\ [TableProcessor.mkView 0 (1, 20)%Z (0, 10)%Z;
          TableProcessor.mkView 1 (1, 20)%Z (0, 10)%Z]
         = ([TableProcessor.mkView 0 (1, 20)%Z (0, 10)%Z] ++ crops)%list)
  /\ fst (TableProcessor.execute one_table add_rectangle "page.png"
             (snd (TableProcessor.reset
                     (snd (TableProcessor.reset
                             (snd (TableProcessor.execute one_table
                                     add_rectangle "page.png"
                                     fresh_detector)))))))
     = fst (TableProcessor.execute one_table add_rectangle "page.png"
              (snd (TableProcessor.reset
                      (snd (TableProcessor.execute one_table add_rectangle
                              "page.png" fresh_detector))))).
Proof.
  split.
  - destruct (proj1 (proj2
                (reset_clears_detected_tables one_table add_rectangle
                   (snd (TableProcessor.execute one_table add_rectangle
                           "page.png" fresh_detector))
                   "page.png"))
                _ _ eq_refl) as (crops & Hcrops & Hres & _).
    exists crops. split; [exact Hcrops | exact Hres].
  - refine (proj2 (proj2
              (reset_clears_detected_tables one_table add_rectangle
                 (snd (TableProcessor.execute one_table add_rectangle
                         "page.png" fresh_detector))
                 "page.png"))
              (snd (TableProcessor.reset
                      (snd (TableProcessor.execute one_table add_rectangle
                              "page.png" fresh_detector))))
              eq_refl eq_refl).
Defined.

(** C10 on two items ten units apart, in either order of recognition. *)
Lemma rows_split_at_exact_threshold_ten :
  group_text_into_rows (apart 10) = Ok [["top"]; ["bottom"]]
  /\ group_text_into_rows
       (recognised [box_at 0 10; box_at 0 0] ["bottom"; "top"])
     = Ok [["top"]; ["bottom"]].
Proof.
  split.
  - refine (rows_split_at_exact_threshold (apart 10)
              eq_refl eq_refl eq_refl eq_refl _).
    reflexivity.
  - refine (rows_split_at_exact_threshold
              (recognised [box_at 0 10; box_at 0 0] ["bottom"; "top"])
              eq_refl eq_refl eq_refl eq_refl _).
    reflexivity.
Defined.

Close Scope string_scope.

(** * Further properties of the text extractor *)

(** ** Reading the input *)

(** X1.  [organize_text_data] pairs the i-th bounding box with the i-th
    text, for every bounding box; texts beyond the last box are left out.
    With fewer texts than boxes it raises [IndexError]. *)
Theorem organize_text_data_pairs (Image : Type) (self : TextExtractor Image) :
  organize_text_data self
  = if (length (bounding_boxes self) <=? length (detected_texts self))%nat
    then Ok (map (fun p => mkEntry (fst p) (snd p))
                 (combine (bounding_boxes self) (detected_texts self)))
    else Raise IndexError.
Proof.
  destruct (length (bounding_boxes self) <=? length (detected_texts self))%nat
    eqn:E.
  - apply Nat.leb_le in E. now apply organize_text_data_Ok.
  - apply Nat.leb_gt in E.
    destruct (organize_text_data self) as [es|e] eqn:Eo.
    + apply organize_text_data_inv in Eo. lia.
    + f_equal. unfold organize_text_data in Eo.
      apply mapM_Raise_inv in Eo. destruct Eo as (i & _ & Hi).
      destruct (py_index (bounding_boxes self) i) as [c|e1] eqn:Ec;
        cbn [bind] in Hi.
      * destruct (py_index (detected_texts self) i) as [t|e2] eqn:Et;
          cbn [bind] in Hi; [discriminate|].
        injection Hi as <-. now apply py_index_Raise in Et.
      * injection Hi as <-. now apply py_index_Raise in Ec.
Qed.

(** ** The shape of the rows *)



Lemma anchored_nonempty (r : TracedRow) : anchored r -> row_cells r <> [].
Proof.
  unfold anchored, row_cells, emitted. intros H Hnil.
  apply map_eq_nil, sort_by_nil_inv in Hnil. now rewrite Hnil in H.
Qed.

Lemma concat_nonempty_length (A : Type) (ls : list (list A)) :
  Forall (fun l => l <> []) ls -> (length ls <= length (concat ls))%nat.
Proof.
  induction 1 as [|l ls Hl _ IH]; cbn [concat length]; [lia|].
  rewrite length_app. destruct l; [contradiction|]. cbn [length]. lia.
Qed.

(** X2.  On an input whose items have finite [avg_y], whenever
    [group_text_into_rows] returns, no row is empty and there is at least
    one row and at most one row per bounding box. *)
Theorem rows_nonempty_and_counted
        (Image : Type) (self : TextExtractor Image) (rows : list (list string))
        (l : list Item) :
  group_text_into_rows self = Ok rows ->
  sorted_items self = Ok l ->
  finite_y l ->
  Forall (fun row => row <> []) rows
  /\ (1 <= length rows <= length (bounding_boxes self))%nat.
Proof.
  intros H Hl Hfin.
  apply group_text_into_rows_inv in H. destruct H as (tr & Htr & ->).
  destruct (group_rows_traced_spec _ Htr Hl Hfin) as (Hne & Hc & Ha & _).
  assert (Hrows : Forall (fun row : list string => row <> []) (map row_cells tr)).
  { apply Forall_map. eapply Forall_impl; [|exact Ha].
    intros r. apply anchored_nonempty. }
  split; [exact Hrows|]. split.
  - rewrite length_map. destruct tr; [|cbn; lia].
    cbn in Hc. now subst l.
  - etransitivity; [apply concat_nonempty_length, Hrows|].
    rewrite (Permutation_length (row_cells_perm tr)), length_map, Hc.
    now rewrite (sorted_items_length _ Hl).
Qed.







(** ** Inputs that give one row, and inputs that give one row per item *)

Lemma scan_all_near (l : list Item) (st : Scan) :
  Forall (fun x => near (avg_y x) (current_avg_y st) = true) l ->
  fold_left scan_step l st
  = mkScan (rows st) (current_row st ++ l) (current_avg_y st).
Proof.
  revert st. induction l as [|x l IH]; intros st H; cbn [fold_left].
  - rewrite app_nil_r. now destruct st.
  - inversion H as [|x' l' Hx Hl]; subst.
    unfold near in Hx. unfold scan_step at 2. rewrite Hx.
    rewrite IH by exact Hl.
    cbn [rows current_row current_avg_y]. now rewrite <- app_assoc.
Qed.

Lemma group_via_sorted_items (Image : Type) (self : TextExtractor Image)
      (l : list Item) :
  sorted_items self = Ok l ->
  group_text_into_rows self
  = (first <- py_index l 0 ;;
     let st := fold_left scan_step l (mkScan [] [] (avg_y first)) in
     Ok (match current_row st with
         | [] => rows st
         | _ :: _ => rows st ++ [emit_row (current_row st)]
         end)).
Proof.
  unfold sorted_items, group_text_into_rows.
  destruct (organize_text_data self) as [es|e]; [|discriminate].
  cbn [bind].
  destruct (mapM add_centroid es) as [items|e]; [|discriminate].
  cbn [bind]. now intros [= <-].
Qed.

(** X4.  On an input read without an exception, let [first] be the item
    with the least [avg_y].  When every item passes the test of the loop
    against [first], [group_text_into_rows] returns a single row, which
    holds all texts in the order of [avg_x] (no [avg_x] being NaN); and on
    an input with finite [avg_y] it returns a single row in that case
    only. *)
Theorem single_row_iff_all_close
        (Image : Type) (self : TextExtractor Image)
        (first : Item) (rest : list Item) :
  sorted_items self = Ok (first :: rest) ->
  (all_near first (first :: rest) ->
   Forall (fun x => is_nan (avg_x x) = false) (first :: rest) ->
   group_text_into_rows self = Ok [map text (sort_by avg_x (first :: rest))])
  /\ (finite_y (first :: rest) ->
      (exists row, group_text_into_rows self = Ok [row]) ->
      all_near first (first :: rest)).
Proof.
  intros Hl. split.
  - intros Hnear _. rewrite (group_via_sorted_items _ Hl).
    cbn [py_index nth_error bind].
    rewrite scan_all_near by exact Hnear. reflexivity.
  - intros Hfin [row Hrow].
    apply group_text_into_rows_inv in Hrow. destruct Hrow as (tr & Htr & Hmap).
    destruct tr as [|r [|r' tr]]; try discriminate.
    destruct (group_rows_traced_spec _ Htr Hl Hfin) as (_ & Hc & Ha & Hn & _).
    cbn [map concat] in Hc. rewrite app_nil_r in Hc.
    inversion Ha as [|r0 tr0 Har _]; subst.
    inversion Hn as [|r0 tr0 Hnr _]; subst.
    unfold anchored in Har. unfold within_threshold in Hnr.
    rewrite Hc in Har, Hnr. unfold all_near. now rewrite <- Har.
Qed.

Lemma scan_all_apart (l : list Item) (a : Item) (done : list (list string)) :
  Sorted threshold_apart (map avg_y (a :: l)) ->
  exists cur rest,
    current_row (fold_left scan_step l (mkScan done [a] (avg_y a))) = cur :: rest
    /\ rows (fold_left scan_step l (mkScan done [a] (avg_y a)))
       ++ [emit_row (cur :: rest)]
       = done ++ map (fun x => [text x]) (a :: l).
Proof.
  revert a done. induction l as [|x l IH]; intros a done Hs; cbn [fold_left].
  - exists a, []. split; reflexivity.
  - cbn [map] in Hs. inversion Hs as [|a' l' Hs' Ha]; subst.
    inversion Ha as [|x' l'' Hax]; subst.
    assert (E : scan_step (mkScan done [a] (avg_y a)) x
                = mkScan (done ++ [emit_row [a]]) [x] (avg_y x)).
    { unfold scan_step. cbn [current_avg_y current_row rows].
      unfold threshold_apart, near in Hax. now rewrite Hax. }
    rewrite E.
    destruct (IH x (done ++ [emit_row [a]]) Hs') as (cur & rest & Hcur & Hrows).
    exists cur, rest. split; [exact Hcur|].
    rewrite Hrows, <- app_assoc. reflexivity.
Qed.

(** X5.  On an input whose items have finite [avg_y] and, taken from top
    to bottom, each fail the test of the loop against the one before,
    [group_text_into_rows] returns one row per item, from top to bottom. *)
Theorem isolated_items_give_singleton_rows
        (Image : Type) (self : TextExtractor Image) (l : list Item) :
  sorted_items self = Ok l ->
  l <> [] ->
  finite_y l ->
  Sorted threshold_apart (map avg_y l) ->
  group_text_into_rows self = Ok (map (fun x => [text x]) l).
Proof.
  intros Hl Hne Hfin Hs. rewrite (group_via_sorted_items _ Hl).
  destruct l as [|first l']; [contradiction|].
  inversion Hfin as [|x' l'' Hf _]; subst.
  cbn [py_index nth_error bind fold_left]. rewrite (scan_first_step _ Hf).
  destruct (@scan_all_apart l' first [] Hs) as (cur & rest & Hcur & Hrows).
  rewrite Hcur, Hrows. reflexivity.
Qed.

(** ** The order in which the items were recognised *)

Lemma mapM_cons_Ok (A B : Type) (f : A -> Result B) (a : A) (l : list A)
      (bs : list B) :
  mapM f (a :: l) = Ok bs <->
  exists b bs', f a = Ok b /\ mapM f l = Ok bs' /\ bs = b :: bs'.
Proof.
  cbn [mapM]. split.
  - destruct (f a) as [b|e]; cbn [bind]; [|discriminate].
    destruct (mapM f l) as [bs'|e]; cbn [bind]; [|discriminate].
    intros [= <-]. now exists b, bs'.
  - intros (b & bs' & -> & -> & ->). reflexivity.
Qed.

Lemma mapM_Permutation (A B : Type) (f : A -> Result B) (l l' : list A) :
  Permutation l l' ->
  forall bs, mapM f l = Ok bs ->
             exists bs', mapM f l' = Ok bs' /\ Permutation bs bs'.
Proof.
  induction 1 as [|x l l' Hp IH|x y l|l l' l'' Hp1 IH1 Hp2 IH2]; intros bs H.
  - exists bs. now split.
  - apply mapM_cons_Ok in H. destruct H as (b & bs0 & Hb & Hbs0 & ->).
    destruct (IH _ Hbs0) as (bs0' & H' & Hperm).
    exists (b :: bs0'). split.
    + apply mapM_cons_Ok. now exists b, bs0'.
    + now constructor.
  - apply mapM_cons_Ok in H. destruct H as (by' & bs1 & Hy & H & ->).
    apply mapM_cons_Ok in H. destruct H as (bx & bs0 & Hx & H & ->).
    exists (bx :: by' :: bs0). split.
    + apply mapM_cons_Ok. exists bx, (by' :: bs0). repeat split; [exact Hx|].
      apply mapM_cons_Ok. now exists by', bs0.
    + apply perm_swap.
  - destruct (IH1 _ H) as (bs' & H' & Hperm1).
    destruct (IH2 _ H') as (bs'' & H'' & Hperm2).
    exists bs''. split; [exact H''|]. now transitivity bs'.
Qed.

(** Two sorted lists with the same elements are the same list when no
    element has a NaN key and no two elements have equal keys. *)
Lemma sorted_distinct_unique (A : Type) (key : A -> float) (l1 : list A) :
  forall l2,
    StronglySorted (le_key key) l1 ->
    StronglySorted (le_key key) l2 ->
    Permutation l1 l2 ->
    ForallOrdPairs (fun a b => (key a =? key b)%float = false) l1 ->
    l1 = l2.
Proof.
  induction l1 as [|a l1 IH]; intros l2 H1 H2 Hp Hd.
  - apply Permutation_nil in Hp. now subst.
  - destruct l2 as [|b l2].
    + symmetry in Hp. now apply Permutation_nil in Hp.
    + inversion H1 as [|a' l1' H1' Ha]; subst.
      inversion H2 as [|b' l2' H2' Hb]; subst.
      inversion Hd as [|a' l1' Hda Hd']; subst.
      assert (E : a = b).
      { assert (Hina : In a (b :: l2))
          by (eapply Permutation_in; [exact Hp | now left]).
        assert (Hinb : In b (a :: l1))
          by (eapply Permutation_in; [symmetry; exact Hp | now left]).
        destruct Hina as [->|Hina]; [reflexivity|].
        destruct Hinb as [->|Hinb]; [reflexivity|].
        exfalso. rewrite Forall_forall in Ha, Hb, Hda.
        specialize (Hda b Hinb).
        rewrite (float_le_antisym (Ha b Hinb) (Hb a Hina)) in Hda.
        discriminate. }
      subst b. f_equal. apply IH; try assumption.
      eapply Permutation_cons_inv, Hp.
Qed.

(** X6.  When no item has NaN as [avg_y] and no two items have equal
    [avg_y], the order in which the recogniser lists the items does not
    matter: an input with the same pairs of box and text in another order
    gives the same rows. *)
Theorem recognition_order_is_irrelevant
        (Image : Type) (s1 s2 : TextExtractor Image) (l : list Item) :
  sorted_items s1 = Ok l ->
  Forall (fun x => is_nan (avg_y x) = false) l ->
  distinct_y l ->
  (length (bounding_boxes s2) <= length (detected_texts s2))%nat ->
  Permutation (combine (bounding_boxes s1) (detected_texts s1))
              (combine (bounding_boxes s2) (detected_texts s2)) ->
  group_text_into_rows s2 = group_text_into_rows s1.
Proof.
  intros Hl Hn Hd Hlen2 Hp.
  assert (Hl2 : sorted_items s2 = Ok l).
  { pose proof (sorted_items_sorted _ Hl Hn) as Hs1.
    unfold sorted_items in Hl |- *.
    destruct (organize_text_data s1) as [es1|e] eqn:Eo; [|discriminate].
    cbn [bind] in Hl.
    destruct (mapM add_centroid es1) as [items1|e] eqn:Em; [|discriminate].
    cbn [bind] in Hl. injection Hl as <-.
    rewrite (organize_text_data_Ok _ (organize_text_data_inv _ Eo)) in Eo.
    injection Eo as <-.
    rewrite (organize_text_data_Ok _ Hlen2). cbn [bind].
    destruct (mapM_Permutation add_centroid
                (Permutation_map (fun p => mkEntry (fst p) (snd p)) Hp) Em)
      as (items2 & Em2 & Hperm).
    rewrite Em2. cbn [bind]. f_equal. symmetry.
    apply (sorted_distinct_unique (key := avg_y)); try assumption.
    - apply sort_by_sorted.
      eapply Permutation_Forall; [|exact Hn].
      now rewrite sort_by_perm, Hperm.
    - now rewrite !sort_by_perm. }
  now rewrite (group_via_sorted_items _ Hl), (group_via_sorted_items _ Hl2).
Qed.

(** ** Drawing the bounding boxes *)

(** The point after the i-th point of a polygon. *)
Lemma next_point (A : Type) (p : A) (rest : list A) (i : nat) :
  (i < S (length rest))%nat ->
  nth_error (p :: rest) ((i + 1) mod S (length rest))
  = nth_error (rest ++ [p]) i.
Proof.
  intros Hi. destruct (Nat.eq_dec i (length rest)) as [->|Hne].
  - replace (length rest + 1)%nat with (S (length rest)) by lia.
    rewrite Nat.Div0.mod_same, nth_error_app2 by lia.
    now rewrite Nat.sub_diag.
  - rewrite Nat.mod_small by lia. replace (i + 1)%nat with (S i) by lia.
    cbn [nth_error]. now rewrite nth_error_app1 by lia.
Qed.

Lemma polygon_edges_nth (pts : list (list Z)) (i : nat) :
  (i < length pts)%nat ->
  exists start stop,
    py_index pts i = Ok start
    /\ py_index pts ((i + 1) mod length pts) = Ok stop
    /\ nth_error (polygon_edges pts) i = Some (start, stop).
Proof.
  destruct pts as [|p rest]; cbn [length]; [lia|]. intros Hi.
  unfold polygon_edges, py_index.
  rewrite nth_error_combine, (next_point p rest Hi).
  destruct (nth_error (p :: rest) i) as [start|] eqn:Es.
  - destruct (nth_error (rest ++ [p]) i) as [stop|] eqn:Et.
    + now exists start, stop.
    + apply nth_error_None in Et. rewrite length_app in Et. cbn in Et. lia.
  - apply nth_error_None in Es. cbn in Es. lia.
Qed.

Lemma polygon_edges_length (pts : list (list Z)) :
  length (polygon_edges pts) = length pts.
Proof.
  destruct pts as [|p rest]; [reflexivity|].
  unfold polygon_edges. rewrite length_combine, length_app.
  cbn [length]. lia.
Qed.

Section DrawingFacts.
Variable Image : Type.
Variable cv2_line : Image -> list Z -> list Z -> Result Image.
Implicit Type self : TextExtractor Image.

Lemma set_source_image_same self :
  set_source_image (source_image self) self = self.
Proof. now destruct self. Qed.

(** The loop of [draw_bounding_box] over the indices [k], [k + 1], ...
    draws the sides of the polygon from the k-th on. *)
Lemma draw_segments_edges (pts : list (list Z)) (m k : nat) self :
  (k + m = length pts)%nat ->
  fst (draw_segments cv2_line pts (seq k m) self)
  = bind (foldM (draw_edge cv2_line) (skipn k (polygon_edges pts)) (source_image self))
         (fun _ => Ok tt)
  /\ forall img,
      foldM (draw_edge cv2_line) (skipn k (polygon_edges pts)) (source_image self) = Ok img ->
      snd (draw_segments cv2_line pts (seq k m) self) = set_source_image img self.
Proof.
  revert k self. induction m as [|m IH]; intros k self Hk.
  - assert (E : skipn k (polygon_edges pts) = []).
    { apply skipn_all2. rewrite polygon_edges_length. lia. }
    rewrite E. cbn. split; [reflexivity|].
    intros img [= <-]. symmetry. apply set_source_image_same.
  - destruct (@polygon_edges_nth pts k) as (start & stop & Hs & Ht & Hn);
      [lia|].
    assert (E : skipn k (polygon_edges pts)
                = (start, stop) :: skipn (S k) (polygon_edges pts)).
    { clear - Hn. revert k Hn.
      induction (polygon_edges pts) as [|e es IHes]; intros [|k] Hn;
        cbn in *; try discriminate.
      - now injection Hn as ->.
      - now apply IHes. }
    rewrite E. cbn [seq draw_segments foldM]. rewrite Hs, Ht.
    unfold draw_edge at 1 3. cbn [fst snd].
    destruct (cv2_line (source_image self) start stop) as [img1|e];
      cbn [bind fst snd].
    + destruct (IH (S k) (set_source_image img1 self)) as [IH1 IH2]; [lia|].
      cbn [source_image set_source_image] in IH1, IH2.
      split; [exact IH1|]. intros img Himg. now rewrite (IH2 img Himg).
    + split; [reflexivity | discriminate].
Qed.

Lemma draw_bounding_box_edges (bbox : BBox) self :
  fst (draw_bounding_box cv2_line bbox self)
  = draw_box cv2_line (source_image self) bbox
  /\ (forall e, box_edges bbox = Raise e ->
                draw_bounding_box cv2_line bbox self = (Raise e, self))
  /\ forall img,
      draw_box cv2_line (source_image self) bbox = Ok img ->
      snd (draw_bounding_box cv2_line bbox self) = set_source_image img self.
Proof.
  unfold draw_bounding_box, draw_box, box_edges.
  destruct (mapM (fun point : Point => mapM py_int point) bbox) as [pts|e0];
    cbn [bind fst snd].
  - destruct (@draw_segments_edges pts (length pts) 0 self eq_refl) as [H1 H2].
    cbn [skipn] in H1, H2.
    destruct (draw_segments cv2_line pts (seq 0 (length pts)) self)
      as [[u|e] self'] eqn:E; cbn [fst snd] in *.
    + destruct (foldM (draw_edge cv2_line) (polygon_edges pts)
                      (source_image self)) as [img|e]; [|discriminate].
      rewrite (H2 img eq_refl). split; [reflexivity|].
      split; [discriminate|]. now intros img' [= <-].
    + destruct (foldM (draw_edge cv2_line) (polygon_edges pts)
                      (source_image self)) as [img|e'].
      * discriminate.
      * cbn [bind] in H1. injection H1 as ->.
        split; [reflexivity|]. split; discriminate.
  - split; [reflexivity|]. split; [|discriminate].
    now intros e [= <-].
Qed.

Lemma foldM_app (A B : Type) (f : B -> A -> Result B) (l l' : list A) (b : B) :
  foldM f (l ++ l') b = bind (foldM f l b) (foldM f l').
Proof.
  revert b. induction l as [|a l IH]; intros b; cbn [app foldM bind].
  - reflexivity.
  - destruct (f b a) as [b'|e]; cbn [bind]; [apply IH | reflexivity].
Qed.

Lemma annotate_boxes_edges (boxes : list BBox) self :
  fst (annotate_boxes cv2_line boxes self)
  = foldM (draw_box cv2_line) boxes (source_image self)
  /\ forall img,
      foldM (draw_box cv2_line) boxes (source_image self) = Ok img ->
      snd (annotate_boxes cv2_line boxes self) = set_source_image img self.
Proof.
  revert self. induction boxes as [|bbox boxes IH]; intros self;
    cbn [annotate_boxes foldM].
  - cbn. split; [reflexivity|].
    intros img [= <-]. symmetry. apply set_source_image_same.
  - destruct (draw_bounding_box_edges bbox self) as (H1 & _ & H2).
    destruct (draw_bounding_box cv2_line bbox self) as [[img1|e] self'];
      cbn [fst snd] in *; rewrite <- H1; cbn [bind].
    + rewrite (H2 img1 (eq_sym H1)).
      destruct (IH (set_source_image img1 self)) as [IH1 IH2].
      cbn [source_image set_source_image] in IH1, IH2.
      split; [exact IH1|]. intros img Himg. now rewrite (IH2 img Himg).
    + split; [reflexivity | discriminate].
Qed.
End DrawingFacts.

Lemma box_edges_length (bbox : BBox) (edges : list (list Z * list Z)) :
  box_edges bbox = Ok edges -> length edges = length bbox.
Proof.
  unfold box_edges.
  destruct (mapM (fun point : Point => mapM py_int point) bbox) as [pts|e]
    eqn:E; cbn [bind]; [|discriminate].
  intros [= <-]. rewrite polygon_edges_length. now apply mapM_Ok_length in E.
Qed.

Lemma box_edges_Raise (bbox : BBox) (e : PyError) :
  box_edges bbox = Raise e ->
  exists point x,
    In point bbox /\ In x point
    /\ ((e = ValueError /\ is_nan x = true)
        \/ (e = OverflowError /\ is_infinity x = true)).
Proof.
  unfold box_edges.
  destruct (mapM (fun point : Point => mapM py_int point) bbox) as [pts|e0]
    eqn:E; cbn [bind]; [discriminate|].
  intros [= <-]. apply mapM_Raise_inv in E. destruct E as (point & Hp & E).
  apply mapM_Raise_inv in E. destruct E as (x & Hx & E).
  exists point, x. split; [exact Hp|]. split; [exact Hx|].
  now apply py_int_Raise.
Qed.

(** X7.  [draw_bounding_box] first cuts every coordinate of the box to an
    integer.  If a coordinate is NaN or infinite this raises [ValueError] or
    [OverflowError] and nothing is drawn.  Otherwise it draws the closed
    polygon through the points: one side per point, every point joined to
    the next and the last to the first; it then raises only what [cv2.line]
    raises, and when it returns, it returns the image it has stored. *)
Theorem draw_bounding_box_draws_polygon
        (Image : Type) (cv2_line : Image -> list Z -> list Z -> Result Image)
        (self : TextExtractor Image) (bbox : BBox) :
  fst (draw_bounding_box cv2_line bbox self)
  = draw_box cv2_line (source_image self) bbox
  /\ (forall edges, box_edges bbox = Ok edges -> length edges = length bbox)
  /\ (forall e,
         box_edges bbox = Raise e ->
         draw_bounding_box cv2_line bbox self = (Raise e, self)
         /\ exists point x,
             In point bbox /\ In x point
             /\ ((e = ValueError /\ is_nan x = true)
                 \/ (e = OverflowError /\ is_infinity x = true)))
  /\ forall img,
      fst (draw_bounding_box cv2_line bbox self) = Ok img ->
      snd (draw_bounding_box cv2_line bbox self) = set_source_image img self.
Proof.
  destruct (draw_bounding_box_edges cv2_line bbox self) as (H1 & H2 & H3).
  split; [exact H1|]. split; [apply box_edges_length|]. split.
  - intros e He. split; [now apply H2 | now apply box_edges_Raise].
  - intros img Himg. apply H3. now rewrite <- H1.
Qed.

(** X8.  [annotate_image] draws the stored bounding boxes one after the
    other on the stored image, each as [draw_bounding_box] draws it; it
    stops at the first box that has a coordinate without an integer or on
    which [cv2.line] raises; when it returns, it returns the image it has
    stored, and nothing else of the instance has changed. *)
Theorem annotate_image_draws_all_boxes
        (Image : Type) (cv2_line : Image -> list Z -> list Z -> Result Image)
        (self : TextExtractor Image) :
  fst (annotate_image cv2_line self)
  = foldM (draw_box cv2_line) (bounding_boxes self) (source_image self)
  /\ forall img,
      fst (annotate_image cv2_line self) = Ok img ->
      snd (annotate_image cv2_line self) = set_source_image img self.
Proof.
  unfold annotate_image.
  destruct (annotate_boxes_edges cv2_line (bounding_boxes self) self)
    as [H1 H2].
  split; [exact H1|]. intros img Himg. apply H2. now rewrite <- H1.
Qed.

(** * Further properties of the table detector *)

Section ExecuteFacts.
Import TableProcessor.
Variable Image : Type.
Variable predict : Image -> list Detection.
Variable cv2_rectangle : Image -> Z * Z -> Z * Z -> Image.
Implicit Type s : State Image.

Lemma for_each_app (A : Type) (l l' : list A) (body : A -> M Image unit) s :
  for_each (l ++ l') body s
  = bindS (for_each l body) (fun _ => for_each l' body) s.
Proof.
  revert s. induction l as [|a l IH]; intros s; cbn [app for_each].
  - reflexivity.
  - unfold bindS at 1 2 3.
    destruct (body a s) as [[u|e] s1]; [apply IH | reflexivity].
Qed.

Lemma for_each_concat (A B : Type) (f : A -> list B) (l : list A)
      (body : B -> M Image unit) s :
  for_each l (fun a => for_each (f a) body) s
  = for_each (concat (map f l)) body s.
Proof.
  revert s. induction l as [|a l IH]; intros s; cbn [map concat for_each].
  - reflexivity.
  - rewrite for_each_app. unfold bindS.
    destruct (for_each (f a) body s) as [[u|e] s1]; [apply IH | reflexivity].
Qed.

Lemma update_at_twice (A : Type) (f g : A -> A) (i : nat) (l : list A) :
  update_at f i (update_at g i l) = update_at (fun a => f (g a)) i l.
Proof.
  revert i. induction l as [|a l IH]; intros [|i]; cbn; try reflexivity.
  now rewrite IH.
Qed.

Lemma update_at_ext (A : Type) (f g : A -> A) (i : nat) (l : list A) :
  (forall a, f a = g a) -> update_at f i l = update_at g i l.
Proof.
  intros H. revert i. induction l as [|a l IH]; intros [|i]; cbn;
    try reflexivity.
  - now rewrite H.
  - now rewrite IH.
Qed.

Lemma update_at_last (A : Type) (f : A -> A) (l : list A) (a : A) :
  update_at f (length l) (l ++ [a]) = l ++ [f a].
Proof.
  induction l as [|b l IH]; cbn; [reflexivity|]. now rewrite IH.
Qed.

Lemma update_at_id (A : Type) (i : nat) (l : list A) :
  update_at (fun a => a) i l = l.
Proof.
  revert i. induction l as [|a l IH]; intros [|i]; cbn; try reflexivity.
  now rewrite IH.
Qed.

(** One box, with the image loaded. *)
Lemma annotate_box_run (table_box : Box) (f : string -> option Image)
      (a : list Image) (tables : list View) (r : nat) :
  annotate_box cv2_rectangle table_box
               (mkState f a (mkTableExtractor tables (Some r)))
  = match box_window table_box with
    | Ok w =>
        (Ok tt,
         mkState f (update_at (fun img => draw_window cv2_rectangle img w) r a)
                 (mkTableExtractor (tables ++ [window_view r w]) (Some r)))
    | Raise e => (Raise e, mkState f a (mkTableExtractor tables (Some r)))
    end.
Proof.
  unfold annotate_box, box_window, bindS, lift.
  destruct (py_index (xyxy table_box) 0) as [bbox_coords|e]; cbn [bind];
    [|reflexivity].
  destruct (unpack4_int bbox_coords)
    as [[[[x_min y_min] x_max] y_max]|e]; reflexivity.
Qed.

(** All boxes, with the image loaded: the windows are drawn and their
    views appended until a box has no window. *)
Lemma annotate_boxes_run (bs : list Box) (f : string -> option Image)
      (a : list Image) (tables : list View) (r : nat) (ws : list (Z * Z * Z * Z)) :
  mapM box_window bs = Ok ws ->
  for_each bs (annotate_box cv2_rectangle)
           (mkState f a (mkTableExtractor tables (Some r)))
  = (Ok tt,
     mkState f
             (update_at (fun img => fold_left (draw_window cv2_rectangle) ws img)
                        r a)
             (mkTableExtractor (tables ++ map (window_view r) ws) (Some r))).
Proof.
  revert a tables ws. induction bs as [|b bs IH]; intros a tables ws H.
  - injection H as <-. cbn. now rewrite update_at_id, app_nil_r.
  - apply mapM_cons_Ok in H. destruct H as (w & ws' & Hw & Hws & ->).
    cbn [for_each]. unfold bindS. rewrite annotate_box_run, Hw.
    rewrite (IH _ _ _ Hws), update_at_twice.
    cbn [map fold_left]. now rewrite <- app_assoc.
Qed.

Lemma annotate_boxes_stop (good rest : list Box) (bad : Box)
      (f : string -> option Image) (a : list Image) (tables : list View)
      (r : nat) (ws : list (Z * Z * Z * Z)) (e : PyError) :
  mapM box_window good = Ok ws ->
  box_window bad = Raise e ->
  for_each (good ++ bad :: rest) (annotate_box cv2_rectangle)
           (mkState f a (mkTableExtractor tables (Some r)))
  = (Raise e,
     mkState f
             (update_at (fun img => fold_left (draw_window cv2_rectangle) ws img)
                        r a)
             (mkTableExtractor (tables ++ map (window_view r) ws) (Some r))).
Proof.
  intros Hgood Hbad. rewrite for_each_app. unfold bindS at 1.
  rewrite annotate_boxes_run with (ws := ws) by exact Hgood.
  cbn [for_each]. unfold bindS. now rewrite annotate_box_run, Hbad.
Qed.

Lemma mapM_Raise_split (A B : Type) (f : A -> Result B) (l : list A)
      (e : PyError) :
  mapM f l = Raise e ->
  exists good bad rest bs,
    l = good ++ bad :: rest /\ mapM f good = Ok bs /\ f bad = Raise e.
Proof.
  induction l as [|a l IH]; cbn [mapM]; [discriminate|].
  destruct (f a) as [b|e'] eqn:Ea; cbn [bind].
  - destruct (mapM f l) as [bs|e'] eqn:El; cbn [bind]; [discriminate|].
    intros [= ->].
    destruct (IH eq_refl) as (good & bad & rest & bs & -> & Hgood & Hbad).
    exists (a :: good), bad, rest, (b :: bs). repeat split; [|exact Hbad].
    cbn [mapM]. now rewrite Ea, Hgood.
  - intros [= ->]. exists [], a, l, []. now repeat split.
Qed.

(** [execute] once the file has been found. *)
Lemma execute_loaded (img_path : string) s (img : Image) :
  files s img_path = Some img ->
  execute predict cv2_rectangle img_path s
  = bindS (for_each (all_boxes (predict img)) (annotate_box cv2_rectangle))
          (fun _ => bindS (save_processed_image "processed_output.png")
                          (fun _ => @get_detected_tables Image))
          (mkState (files s) (arrays s ++ [img])
                   (mkTableExtractor (detected_tables (self s))
                                     (Some (length (arrays s))))).
Proof.
  intros Hf. unfold execute, bindS at 1, load_and_predict. rewrite Hf.
  unfold bindS at 1 3, annotate_image, all_boxes.
  now rewrite for_each_concat.
Qed.

Lemma execute_success (img_path : string) s (img : Image)
      (ws : list (Z * Z * Z * Z)) :
  files s img_path = Some img ->
  mapM box_window (all_boxes (predict img)) = Ok ws ->
  exists f',
    execute predict cv2_rectangle img_path s
    = (Ok (detected_tables (self s)
           ++ map (window_view (length (arrays s))) ws),
       mkState f'
               (arrays s ++ [fold_left (draw_window cv2_rectangle) ws img])
               (mkTableExtractor
                  (detected_tables (self s)
                   ++ map (window_view (length (arrays s))) ws)
                  (Some (length (arrays s)))))
    /\ forall q,
        f' q = if String.eqb q "processed_output.png"
               then Some (fold_left (draw_window cv2_rectangle) ws img)
               else files s q.
Proof.
  intros Hf Hws. rewrite (execute_loaded _ _ Hf). unfold bindS at 1.
  rewrite annotate_boxes_run with (ws := ws) by exact Hws.
  rewrite update_at_last.
  unfold bindS, save_processed_image, get_source_image, get_detected_tables.
  cbn [self source_image arrays files detected_tables].
  eexists. split; [reflexivity|].
  intros q. cbv beta. cbn [arrays files self source_image detected_tables].
  rewrite nth_error_app2 by lia.
  now rewrite Nat.sub_diag.
Qed.

Lemma execute_stop (img_path : string) s (img : Image)
      (good rest : list Box) (bad : Box) (ws : list (Z * Z * Z * Z))
      (e : PyError) :
  files s img_path = Some img ->
  all_boxes (predict img) = good ++ bad :: rest ->
  mapM box_window good = Ok ws ->
  box_window bad = Raise e ->
  execute predict cv2_rectangle img_path s
  = (Raise e,
     mkState (files s)
             (arrays s ++ [fold_left (draw_window cv2_rectangle) ws img])
             (mkTableExtractor
                (detected_tables (self s)
                 ++ map (window_view (length (arrays s))) ws)
                (Some (length (arrays s))))).
Proof.
  intros Hf Hall Hgood Hbad. rewrite (execute_loaded _ _ Hf), Hall.
  unfold bindS at 1.
  rewrite annotate_boxes_stop with (ws := ws) (e := e) by assumption.
  now rewrite update_at_last.
Qed.

Lemma execute_returns_missing_file s (img_path : string) :
  files s img_path = None ->
  fst (execute predict cv2_rectangle img_path s) = Raise FileNotFoundError
  /\ snd (execute predict cv2_rectangle img_path s) = s.
Proof.
  intros Hf. unfold execute, bindS, load_and_predict. rewrite Hf.
  now split.
Qed.
End ExecuteFacts.

(** X10.  After [execute] has returned, the image read from the file is a
    new array on which the rectangles of all windows are drawn, in the order
    of detection; the arrays of earlier calls are as they were;
    [source_image] is the new array; and the file [processed_output.png]
    holds the new array, every other file being as before. *)
Theorem execute_draws_and_saves
        (Image : Type)
        (predict : Image -> list TableProcessor.Detection)
        (cv2_rectangle : Image -> Z * Z -> Z * Z -> Image)
        (s : TableProcessor.State Image) (img_path : string)
        (img : Image) (ws : list (Z * Z * Z * Z)) :
  TableProcessor.files s img_path = Some img ->
  mapM box_window (all_boxes (predict img)) = Ok ws ->
  TableProcessor.arrays
    (snd (TableProcessor.execute predict cv2_rectangle img_path s))
  = TableProcessor.arrays s ++ [fold_left (draw_window cv2_rectangle) ws img]
  /\ TableProcessor.source_image
       (TableProcessor.self
          (snd (TableProcessor.execute predict cv2_rectangle img_path s)))
     = Some (length (TableProcessor.arrays s))
  /\ forall q,
      TableProcessor.files
        (snd (TableProcessor.execute predict cv2_rectangle img_path s)) q
      = if String.eqb q "processed_output.png"
        then Some (fold_left (draw_window cv2_rectangle) ws img)
        else TableProcessor.files s q.
Proof.
  intros Hf Hws.
  destruct (@execute_success Image predict cv2_rectangle img_path s img ws Hf Hws) as (f' & -> & Hf').
  repeat split. exact Hf'.
Qed.

(** X11.  When a box without a window stops [execute], the views of the
    boxes before it stay in the instance and their rectangles stay drawn;
    no file is written. *)
Theorem execute_failure_keeps_views
        (Image : Type)
        (predict : Image -> list TableProcessor.Detection)
        (cv2_rectangle : Image -> Z * Z -> Z * Z -> Image)
        (s : TableProcessor.State Image) (img_path : string)
        (img : Image) (good rest : list TableProcessor.Box)
        (bad : TableProcessor.Box) (ws : list (Z * Z * Z * Z)) (e : PyError) :
  TableProcessor.files s img_path = Some img ->
  all_boxes (predict img) = good ++ bad :: rest ->
  mapM box_window good = Ok ws ->
  box_window bad = Raise e ->
  fst (TableProcessor.execute predict cv2_rectangle img_path s) = Raise e
  /\ TableProcessor.detected_tables
       (TableProcessor.self
          (snd (TableProcessor.execute predict cv2_rectangle img_path s)))
     = TableProcessor.detected_tables (TableProcessor.self s)
       ++ map (window_view (length (TableProcessor.arrays s))) ws
  /\ TableProcessor.arrays
       (snd (TableProcessor.execute predict cv2_rectangle img_path s))
     = TableProcessor.arrays s ++ [fold_left (draw_window cv2_rectangle) ws img]
  /\ TableProcessor.files
       (snd (TableProcessor.execute predict cv2_rectangle img_path s))
     = TableProcessor.files s.
Proof.
  intros Hf Hall Hgood Hbad.
  rewrite (@execute_stop Image predict cv2_rectangle img_path s img good rest
             bad ws e Hf Hall Hgood Hbad).
  now repeat split.
Qed.

(** * The further properties on the example inputs *)

Open Scope string_scope.

(** X2 on [scenario_c]. *)
Lemma rows_nonempty_and_counted_scenario_c :
  Forall (fun row : list string => row <> []) [["x10"; "x20"; "x30"]]
  /\ (1 <= length [["x10"; "x20"; "x30"]]
      <= length (bounding_boxes scenario_c))%nat.
Proof.
  apply (@rows_nonempty_and_counted unit scenario_c [["x10"; "x20"; "x30"]] _
           eq_refl eq_refl).
  repeat constructor.
Defined.


(** X4 on [scenario_c]: its three items are close, and come back as one
    row. *)
Lemma single_row_iff_all_close_scenario_c :
  group_text_into_rows scenario_c = Ok [["x10"; "x20"; "x30"]].
Proof.
  refine (proj1 (@single_row_iff_all_close unit scenario_c _ _ eq_refl) _ _);
    repeat constructor.
Defined.

(** X5 on [scenario_b]: its two items are fifty units apart. *)
Lemma isolated_items_give_singleton_rows_scenario_b :
  group_text_into_rows scenario_b = Ok [["high"]; ["low"]].
Proof.
  refine (@isolated_items_give_singleton_rows unit scenario_b _ eq_refl _ _ _).
  - discriminate.
  - repeat constructor.
  - repeat constructor.
Defined.

(** X6 on [scenario_b] and the same two items recognised in the other
    order. *)
Lemma recognition_order_is_irrelevant_scenario_b :
  group_text_into_rows (recognised [box_at 0 0; box_at 0 50] ["high"; "low"])
  = group_text_into_rows scenario_b.
Proof.
  refine (@recognition_order_is_irrelevant unit scenario_b
            (recognised [box_at 0 0; box_at 0 50] ["high"; "low"])
            _ eq_refl _ _ _ _).
  - repeat constructor.
  - repeat constructor.
  - cbn. lia.
  - apply perm_swap.
Defined.

(** X7 on the square around the origin: four sides, closed; and on a box
    with a NaN coordinate: nothing is drawn. *)
Lemma draw_bounding_box_draws_polygon_square :
  snd (draw_bounding_box record_line (box_at 0 0) (sketching []))
  = set_source_image
      [([-1; -1], [1; -1]); ([1; -1], [1; 1]);
       ([1; 1], [-1; 1]); ([-1; 1], [-1; -1])]%Z
      (sketching [])
  /\ draw_bounding_box record_line [[0; 0]; [nan; 3]]%float (sketching [])
     = (Raise ValueError, sketching []).
Proof.
  split.
  - apply (proj2 (proj2 (proj2 (draw_bounding_box_draws_polygon
                                  record_line (sketching []) (box_at 0 0))))).
    reflexivity.
  - apply (proj1 (proj2 (proj2 (draw_bounding_box_draws_polygon
                                  record_line (sketching [])
                                  [[0; 0]; [nan; 3]]%float))) ValueError).
    reflexivity.
Defined.

(** X8 on a triangle and a segment. *)
Lemma annotate_image_draws_all_boxes_two :
  snd (annotate_image record_line
         (sketching [[[0; 0]; [6; 0]; [6; 3]]; [[1; 1]; [2.5; 2.5]]]%float))
  = set_source_image
      [([0; 0], [6; 0]); ([6; 0], [6; 3]); ([6; 3], [0; 0]);
       ([1; 1], [2; 2]); ([2; 2], [1; 1])]%Z
      (sketching [[[0; 0]; [6; 0]; [6; 3]]; [[1; 1]; [2.5; 2.5]]]%float).
Proof.
  apply (proj2 (annotate_image_draws_all_boxes record_line
                  (sketching [[[0; 0]; [6; 0]; [6; 3]];
                              [[1; 1]; [2.5; 2.5]]]%float))).
  reflexivity.
Defined.

(** X10 on the first page of a new detector. *)
Lemma execute_draws_and_saves_first_page :
  TableProcessor.arrays
    (snd (TableProcessor.execute one_table add_rectangle "page.png"
                                 fresh_detector))
  = [[(0, 1, 10, 20)%Z]]
  /\ TableProcessor.source_image
       (TableProcessor.self
          (snd (TableProcessor.execute one_table add_rectangle "page.png"
                                       fresh_detector)))
     = Some 0%nat
  /\ forall q,
      TableProcessor.files
        (snd (TableProcessor.execute one_table add_rectangle "page.png"
                                     fresh_detector)) q
      = if String.eqb q "processed_output.png"
        then Some [(0, 1, 10, 20)%Z]
        else TableProcessor.files fresh_detector q.
Proof.
  apply (@execute_draws_and_saves drawing one_table add_rectangle
           fresh_detector "page.png" [] [(0, 1, 10, 20)%Z]); reflexivity.
Defined.

(** X11 on a page whose second box has three coordinates. *)
Lemma execute_failure_keeps_views_broken_page :
  fst (TableProcessor.execute one_table_one_broken add_rectangle "page.png"
                              fresh_detector)
  = Raise ValueError
  /\ TableProcessor.detected_tables
       (TableProcessor.self
          (snd (TableProcessor.execute one_table_one_broken add_rectangle
                                       "page.png" fresh_detector)))
     = [TableProcessor.mkView 0 (1, 20)%Z (0, 10)%Z]
  /\ TableProcessor.arrays
       (snd (TableProcessor.execute one_table_one_broken add_rectangle
                                    "page.png" fresh_detector))
     = [[(0, 1, 10, 20)%Z]]
  /\ TableProcessor.files
       (snd (TableProcessor.execute one_table_one_broken add_rectangle
                                    "page.png" fresh_detector))
     = TableProcessor.files fresh_detector.
Proof.
  apply (@execute_failure_keeps_views drawing one_table_one_broken add_rectangle
           fresh_detector "page.png" []
           [TableProcessor.mkBox [[0.5; 1.5; 10; 20]%float]] []
           (TableProcessor.mkBox [[1; 2; 3]%float]) [(0, 1, 10, 20)%Z]
           ValueError);
    reflexivity.
Defined.

Close Scope string_scope.

(** * Further properties: recognition and the server *)

Lemma combine_map_map (A B C : Type) (f : A -> B) (g : A -> C) (l : list A) :
  combine (map f l) (map g l) = map (fun a => (f a, g a)) l.
Proof.
  induction l as [|a l IH]; cbn; [reflexivity|]. now rewrite IH.
Qed.

Lemma forallb_map_compose (A B : Type) (f : B -> bool) (g : A -> B)
      (l : list A) :
  forallb f (map g l) = forallb (fun a => f (g a)) l.
Proof.
  induction l as [|a l IH]; cbn; [reflexivity|]. now rewrite IH.
Qed.

(** Returned rows hold the detected texts, when there is one text per box. *)
Lemma group_text_into_rows_texts (Image : Type) (self : TextExtractor Image) :
  well_formed_input self = true ->
  length (detected_texts self) = length (bounding_boxes self) ->
  exists rows,
    group_text_into_rows self = Ok rows
    /\ Permutation (concat rows) (detected_texts self).
Proof.
  intros Hwf Hlen.
  destruct (group_text_into_rows_cells _ Hwf) as (rows & Hrows & Hperm).
  rewrite map_snd_combine_eq in Hperm by now symmetry.
  now exists rows.
Qed.

(** X12.  When the recogniser returns the lines of the image,
    [extract_text] stores as many texts and confidences as bounding boxes,
    so that [organize_text_data] returns the lines as pairs of box and
    text.  [group_text_into_rows] then raises [IndexError] if there is no
    line, and returns rows holding the texts of the lines if there is a line
    and every box is well formed.  When the recogniser returns [None] for the
    image, [extract_text] raises [TypeError]; when it returns no entry at
    all, [IndexError]. *)
Theorem extract_text_then_group
        (Image : Type) (ocr : Image -> Outcome (list (option (list OcrEngine.Line))))
        (input_image : Image) :
  (forall lines rest,
      ocr input_image = Returned (Some lines :: rest) ->
      exists self,
        OcrEngine.extract_text ocr input_image = Returned self
        /\ source_image self = input_image
        /\ length (detected_texts self) = length (bounding_boxes self)
        /\ length (confidence_scores self) = length (bounding_boxes self)
        /\ organize_text_data self
           = Ok (map (fun ln => mkEntry (OcrEngine.line_box ln)
                                        (OcrEngine.line_text ln)) lines)
        /\ (lines = [] -> group_text_into_rows self = Raise IndexError)
        /\ (lines <> [] ->
            forallb (fun ln => well_formed_box (OcrEngine.line_box ln)) lines
            = true ->
            exists rows,
              group_text_into_rows self = Ok rows
              /\ Permutation (concat rows) (map OcrEngine.line_text lines)))
  /\ (forall rest,
         ocr input_image = Returned (None :: rest) ->
         OcrEngine.extract_text ocr input_image = Raised TypeError)
  /\ (ocr input_image = Returned [] ->
      OcrEngine.extract_text ocr input_image = Raised (Known IndexError)).
Proof.
  split; [|split].
  - intros lines rest Hocr. unfold OcrEngine.extract_text. rewrite Hocr.
    cbn [py_index nth_error]. eexists. split; [reflexivity|].
    cbn [source_image detected_texts bounding_boxes confidence_scores].
    rewrite !length_map.
    split; [reflexivity|]. split; [reflexivity|]. split; [reflexivity|].
    split; [|split].
    + rewrite organize_text_data_Ok;
        cbn [detected_texts bounding_boxes]; [|now rewrite !length_map].
      now rewrite combine_map_map, map_map.
    + now intros ->.
    + intros Hne Hwf. apply group_text_into_rows_texts.
      * unfold well_formed_input. cbn [detected_texts bounding_boxes].
        destruct lines as [|ln lines]; [contradiction|].
        cbn [map]. rewrite <- !map_cons, !length_map, Nat.leb_refl.
        cbn [andb]. now rewrite forallb_map_compose.
      * cbn [detected_texts bounding_boxes]. now rewrite !length_map.
  - intros rest Hocr. unfold OcrEngine.extract_text. now rewrite Hocr.
  - intros Hocr. unfold OcrEngine.extract_text. now rewrite Hocr.
Qed.

(** ** The server *)

Lemma number_rows_numbers (k : nat) (table_rows : list (list string)) :
  map App.row_no (App.number_rows k table_rows)
  = seq (k + 1) (length table_rows)
  /\ map App.data (App.number_rows k table_rows) = table_rows.
Proof.
  revert k. induction table_rows as [|row rest IH]; intros k;
    cbn [App.number_rows map length seq App.row_no App.data].
  - now split.
  - destruct (IH (S k)) as [IH1 IH2]. rewrite IH1, IH2.
    replace (S k + 1)%nat with (S (k + 1)) by lia. now split.
Qed.

Section ServerFacts.
Variable Image : Type.
Variable predict : Image -> list TableProcessor.Detection.
Variable cv2_rectangle : Image -> Z * Z -> Z * Z -> Image.
Variable crop : Image -> Z * Z -> Z * Z -> Image.
Variable ocr : Image -> Outcome (list (option (list OcrEngine.Line))).
Variable cv2_line_on :
  Image -> Z * Z -> Z * Z -> list Z -> list Z -> Result Image.
Implicit Type st : TableProcessor.State Image.



Lemma read_tables_returned (crops : list TableProcessor.View) (k : nat)
      (acc tables : list App.TableData) st st' :
  App.read_tables crop ocr cv2_line_on k crops acc st = (Returned tables, st') ->
  exists new,
    tables = acc ++ new
    /\ length new = length crops
    /\ map App.table_no new = seq (k + 1) (length crops)
    /\ Forall rows_numbered new.
Proof.
  revert k acc st. induction crops as [|v crops IH]; intros k acc st;
    cbn [App.read_tables].
  - intros [= <- <-]. exists []. rewrite app_nil_r. now repeat split.
  - destruct (App.read_table crop ocr cv2_line_on v st) as [[table_rows|e] st1];
      [|discriminate].
    intros H. apply IH in H. destruct H as (new & -> & Hlen & Hno & Hrows).
    exists (App.mkTableData (k + 1) (App.number_rows 0 table_rows) :: new).
    repeat split.
    + now rewrite <- app_assoc.
    + cbn [length]. now rewrite Hlen.
    + cbn [map length seq App.table_no]. rewrite Hno.
      now replace (S k + 1)%nat with (S (k + 1)) by lia.
    + constructor; [|exact Hrows].
      unfold rows_numbered. cbn [App.table_rows].
      destruct (number_rows_numbers 0 table_rows) as [H1 H2].
      rewrite H1. cbn [Nat.add].
      now rewrite <- (length_map App.row_no), H1, length_seq.
Qed.

(** The first table stops the loop when its recognition raises. *)
Lemma read_tables_first_raises (v : TableProcessor.View)
      (rest : list TableProcessor.View) (k : nat) (acc : list App.TableData)
      st (e : Exception) :
  OcrEngine.extract_text (App.ocr_view crop ocr)
                         (App.mkCanvas (TableProcessor.arrays st) v)
  = Raised e ->
  App.read_tables crop ocr cv2_line_on k (v :: rest) acc st = (Raised e, st).
Proof.
  intros H. cbn [App.read_tables]. unfold App.read_table. now rewrite H.
Qed.

(** A view of an array that exists shows the same when arrays are added. *)
Lemma extract_text_more_arrays (v : TableProcessor.View)
      (arrs more : list Image) (e : Exception) :
  (TableProcessor.view_base v < length arrs)%nat ->
  OcrEngine.extract_text (App.ocr_view crop ocr) (App.mkCanvas arrs v)
  = Raised e ->
  OcrEngine.extract_text (App.ocr_view crop ocr)
                         (App.mkCanvas (arrs ++ more) v)
  = Raised e.
Proof.
  intros Hv. unfold OcrEngine.extract_text, App.ocr_view, App.canvas_pixels.
  cbn [App.store App.view]. rewrite nth_error_app1 by exact Hv.
  destruct (nth_error arrs (TableProcessor.view_base v)) as [arr|];
    [|now intros H].
  destruct (ocr _) as [ocr_results|e']; [|now intros H].
  destruct (py_index ocr_results 0) as [[lines|]|e']; now intros H.
Qed.

(** Whatever [execute] does, the tables and the arrays held before stay,
    in front of what is added. *)
Lemma execute_grows (img_path : string) st :
  exists views arrs,
    TableProcessor.detected_tables
      (TableProcessor.self
         (snd (TableProcessor.execute predict cv2_rectangle img_path st)))
    = TableProcessor.detected_tables (TableProcessor.self st) ++ views
    /\ TableProcessor.arrays
         (snd (TableProcessor.execute predict cv2_rectangle img_path st))
       = TableProcessor.arrays st ++ arrs.
Proof.
  destruct (TableProcessor.files st img_path) as [img|] eqn:Hf.
  - destruct (mapM box_window (all_boxes (predict img))) as [ws|e] eqn:Hws.
    + destruct (@execute_success Image predict cv2_rectangle img_path st img ws
                  Hf Hws) as (f' & -> & _).
      eexists. eexists. split; reflexivity.
    + destruct (mapM_Raise_split _ _ Hws)
        as (good & bad & rest & ws & Hall & Hgood & Hbad).
      rewrite (@execute_stop Image predict cv2_rectangle img_path st img good
                 rest bad ws e Hf Hall Hgood Hbad).
      eexists. eexists. split; reflexivity.
  - destruct (execute_returns_missing_file predict cv2_rectangle st img_path Hf)
      as [_ ->].
    exists [], []. now rewrite !app_nil_r.
Qed.
End ServerFacts.

Section ServerProperties.
Variable Image : Type.
Variable predict : Image -> list TableProcessor.Detection.
Variable cv2_rectangle : Image -> Z * Z -> Z * Z -> Image.
Variable crop : Image -> Z * Z -> Z * Z -> Image.
Variable ocr : Image -> Outcome (list (option (list OcrEngine.Line))).
Variable cv2_line_on :
  Image -> Z * Z -> Z * Z -> list Z -> list Z -> Result Image.

(** A response that is not one of the two fixed messages comes from an
    unbound detector, or from the detection and the reading of the upload. *)
Lemma handler_processed (request : App.Request Image) (sv sv' : App.Server Image)
      (resp : App.Response) :
  App.extract_text_from_image predict cv2_rectangle crop ocr cv2_line_on
                              request sv = (resp, sv') ->
  (forall m, App.body resp <> App.ErrorBody (App.Message m)) ->
  (App.table_detector sv = None
   /\ resp = App.mkResponse (App.ErrorBody (App.StrOf (Known NameError))) 500
   /\ sv' = sv)
  \/ exists detector image_file out st',
      App.table_detector sv = Some detector
      /\ App.request_image request = Some image_file
      /\ App.detect_and_read predict cv2_rectangle crop ocr cv2_line_on
           (App.os_path_join "./images" (App.filename image_file))
           (saved_upload sv detector image_file) = (out, st')
      /\ sv' = App.server_of st'
      /\ match out with
         | Returned tables_data =>
             resp = App.mkResponse (App.TablesBody tables_data) 200
         | Raised e => resp = App.mkResponse (App.ErrorBody (App.StrOf e)) 500
         end.
Proof.
  unfold App.extract_text_from_image. intros H Hbody.
  destruct (App.table_detector sv) as [detector|];
    [right | left; injection H as <- <-; now repeat split].
  destruct (App.request_image request) as [image_file|];
    [|injection H as <- _; now contradiction (Hbody _ eq_refl)].
  destruct (String.eqb (App.filename image_file) "");
    [injection H as <- _; now contradiction (Hbody _ eq_refl)|].
  fold (saved_upload sv detector image_file) in H.
  destruct (App.detect_and_read _ _ _ _ _ _ _) as [out st'] eqn:E.
  exists detector, image_file, out, st'.
  destruct out as [tables_data|e]; injection H as <- <-; now repeat split.
Qed.

(** The upload is the file that [execute] reads. *)
Lemma saved_upload_file (sv : App.Server Image)
      (detector : TableProcessor.TableExtractor)
      (image_file : App.FileStorage Image) :
  TableProcessor.files (saved_upload sv detector image_file)
    (App.os_path_join "./images" (App.filename image_file))
  = Some (App.content image_file).
Proof.
  unfold saved_upload. cbn [TableProcessor.files].
  now rewrite String.eqb_refl.
Qed.

(** X13.  In a response with tables, the status is 200, the tables are
    numbered 1, 2, ... in the order of the list, and so are the rows of
    every table. *)
Theorem response_numbers_tables_and_rows
        (request : App.Request Image) (sv sv' : App.Server Image)
        (tables_data : list App.TableData) (code : nat) :
  App.extract_text_from_image predict cv2_rectangle crop ocr cv2_line_on
                              request sv
  = (App.mkResponse (App.TablesBody tables_data) code, sv') ->
  code = 200%nat
  /\ map App.table_no tables_data = seq 1 (length tables_data)
  /\ Forall rows_numbered tables_data.
Proof.
  intros H. apply handler_processed in H; [|discriminate].
  destruct H as [(_ & H & _) | H]; [discriminate|].
  destruct H as (detector & image_file & out & st' & _ & _ & Hd & _ & Hout).
  destruct out as [tables|e]; [|discriminate]. injection Hout as -> ->.
  split; [reflexivity|].
  unfold App.detect_and_read in Hd.
  destruct (TableProcessor.execute _ _ _ _) as [[crops|e] st1]; [|discriminate].
  destruct (App.read_tables _ _ _ _ _ _ _) as [[tables'|e] st2] eqn:E;
    [|discriminate].
  injection Hd as <- _.
  apply read_tables_returned in E.
  destruct E as (new & -> & Hlen & Hno & Hrows). cbn [app].
  now rewrite Hlen.
Qed.

(** X14.  A response with tables has one table for every table the
    detector held when the request came and one for every box the detector
    has found on the upload, each box having a window; after it the
    detector holds no table. *)
Theorem response_counts_held_and_new_tables
        (request : App.Request Image) (sv sv' : App.Server Image)
        (tables_data : list App.TableData) (code : nat) :
  App.extract_text_from_image predict cv2_rectangle crop ocr cv2_line_on
                              request sv
  = (App.mkResponse (App.TablesBody tables_data) code, sv') ->
  exists detector detector' image_file ws,
    App.table_detector sv = Some detector
    /\ App.request_image request = Some image_file
    /\ mapM box_window (all_boxes (predict (App.content image_file))) = Ok ws
    /\ length tables_data
       = (length (TableProcessor.detected_tables detector)
          + length (all_boxes (predict (App.content image_file))))%nat
    /\ App.table_detector sv' = Some detector'
    /\ TableProcessor.detected_tables detector' = [].
Proof.
  intros H. apply handler_processed in H; [|discriminate].
  destruct H as [(_ & H & _) | H]; [discriminate|].
  destruct H as (detector & image_file & out & st' & Hdet & Hreq & Hd & -> & Hout).
  destruct out as [tables|e]; [|discriminate]. injection Hout as -> ->.
  unfold App.detect_and_read in Hd.
  pose proof (saved_upload_file sv detector image_file) as Hf.
  destruct (mapM box_window (all_boxes (predict (App.content image_file))))
    as [ws|e] eqn:Hws.
  - destruct (@execute_success Image predict cv2_rectangle _ _ _ ws Hf Hws)
      as (f' & Hex & _).
    rewrite Hex in Hd.
    destruct (App.read_tables _ _ _ _ _ _ _) as [[tables'|e] st2] eqn:E;
      [|discriminate].
    injection Hd as <- <-.
    apply read_tables_returned in E. destruct E as (new' & -> & Hlen & _).
    exists detector, (TableProcessor.self (snd (TableProcessor.reset st2))),
           image_file, ws.
    repeat split; try assumption.
    cbn [app]. rewrite Hlen, length_app, length_map.
    cbn [saved_upload TableProcessor.self]. f_equal.
    now apply mapM_Ok_length in Hws.
  - destruct (mapM_Raise_split _ _ Hws)
      as (good & bad & rest & ws & Hall & Hgood & Hbad).
    rewrite (@execute_stop Image predict cv2_rectangle _ _ _ good rest bad ws e
               Hf Hall Hgood Hbad) in Hd.
    discriminate.
Qed.


(** X16.  Once the detector holds a first table on which [extract_text]
    raises, no request is answered with the status 200, and the server stays
    in that condition. *)
Theorem poisoned_server_stays_poisoned
        (request : App.Request Image) (sv : App.Server Image) :
  poisoned crop ocr sv ->
  App.status
    (fst (App.extract_text_from_image predict cv2_rectangle crop ocr
                                      cv2_line_on request sv))
  <> 200%nat
  /\ poisoned crop ocr
       (snd (App.extract_text_from_image predict cv2_rectangle crop ocr
                                         cv2_line_on request sv)).
Proof.
  intros Hp. pose proof Hp as (detector & v & rest & e & Hdet & Hv & Hbase & He).
  unfold App.extract_text_from_image. rewrite Hdet.
  destruct (App.request_image request) as [image_file|];
    [|split; [discriminate | exact Hp]].
  destruct (String.eqb (App.filename image_file) "");
    [split; [discriminate | exact Hp]|].
  fold (saved_upload sv detector image_file).
  set (image_path := App.os_path_join "./images" (App.filename image_file)).
  unfold App.detect_and_read.
  destruct (execute_grows predict cv2_rectangle image_path
              (saved_upload sv detector image_file))
    as (views & arrs & Hviews & Harrs).
  destruct (TableProcessor.execute predict cv2_rectangle image_path
              (saved_upload sv detector image_file))
    as [[crops|e1] st1] eqn:Ex; cbn [snd] in Hviews, Harrs.
  - apply execute_returns in Ex. destruct Ex as [Hheld _].
    rewrite Hviews in Hheld. cbn [saved_upload TableProcessor.self] in Hheld.
    rewrite Hv in Hheld. cbn [app] in Hheld. subst crops.
    rewrite read_tables_first_raises with (e := e).
    + cbn [fst snd]. split; [discriminate|].
      exists (TableProcessor.self st1), v, (rest ++ views), e.
      cbn [fst snd App.server_of App.table_detector App.server_arrays].
      rewrite Hviews, Harrs. cbn [saved_upload TableProcessor.self
                                   TableProcessor.arrays].
      rewrite Hv, length_app. repeat split; [lia|].
      now apply extract_text_more_arrays.
    + rewrite Harrs. cbn [saved_upload TableProcessor.arrays].
      now apply extract_text_more_arrays.
  - cbn [fst snd]. split; [discriminate|].
    exists (TableProcessor.self st1), v, (rest ++ views), e.
    cbn [fst snd App.server_of App.table_detector App.server_arrays].
    rewrite Hviews, Harrs. cbn [saved_upload TableProcessor.self
                                 TableProcessor.arrays].
    rewrite Hv, length_app. repeat split; [lia|].
    now apply extract_text_more_arrays.
Qed.

Lemma execute_Ok_arrays (img_path : string) (st st1 : TableProcessor.State Image)
      (res : list TableProcessor.View) :
  TableProcessor.execute predict cv2_rectangle img_path st = (Ok res, st1) ->
  exists final,
    TableProcessor.arrays st1 = TableProcessor.arrays st ++ [final].
Proof.
  intros H.
  destruct (TableProcessor.files st img_path) as [img|] eqn:Hf.
  - destruct (mapM box_window (all_boxes (predict img))) as [ws|e] eqn:Hws.
    + destruct (@execute_success Image predict cv2_rectangle img_path st img ws
                  Hf Hws) as (f' & Hex & _).
      rewrite Hex in H. injection H as _ <-. eexists. reflexivity.
    + destruct (mapM_Raise_split _ _ Hws)
        as (good & bad & rest & ws & Hall & Hgood & Hbad).
      rewrite (@execute_stop Image predict cv2_rectangle img_path st img good
                 rest bad ws e Hf Hall Hgood Hbad) in H.
      discriminate.
  - destruct (execute_returns_missing_file predict cv2_rectangle st img_path Hf)
      as [Hfst _].
    rewrite H in Hfst. discriminate.
Qed.

(** X17.  When the detector holds no table and the recogniser raises on
    the first table found on the upload, the response reports that exception
    with the status 500 and the server is left poisoned. *)
Theorem recognition_failure_poisons
        (request : App.Request Image) (sv : App.Server Image)
        (detector : TableProcessor.TableExtractor)
        (image_file : App.FileStorage Image)
        (v : TableProcessor.View) (rest : list TableProcessor.View)
        (st1 : TableProcessor.State Image) (e : Exception) :
  App.table_detector sv = Some detector ->
  TableProcessor.detected_tables detector = [] ->
  App.request_image request = Some image_file ->
  App.filename image_file <> ""%string ->
  TableProcessor.execute predict cv2_rectangle
    (App.os_path_join "./images" (App.filename image_file))
    (saved_upload sv detector image_file) = (Ok (v :: rest), st1) ->
  OcrEngine.extract_text (App.ocr_view crop ocr)
                         (App.mkCanvas (TableProcessor.arrays st1) v)
  = Raised e ->
  App.extract_text_from_image predict cv2_rectangle crop ocr cv2_line_on
                              request sv
  = (App.mkResponse (App.ErrorBody (App.StrOf e)) 500, App.server_of st1)
  /\ poisoned crop ocr (App.server_of st1).
Proof.
  intros Hdet Hclean Hreq Hname Hex He. split.
  - unfold App.extract_text_from_image. rewrite Hdet, Hreq.
    apply String.eqb_neq in Hname. rewrite Hname.
    fold (saved_upload sv detector image_file).
    unfold App.detect_and_read. rewrite Hex.
    now rewrite read_tables_first_raises with (e := e).
  - destruct (execute_Ok_arrays _ _ Hex) as (final & Harrs).
    apply execute_returns in Hex. destruct Hex as [Hheld (new & Hnew & Hbase)].
    cbn [saved_upload TableProcessor.self TableProcessor.arrays] in *.
    rewrite Hclean in Hnew. cbn [app] in Hnew. subst new.
    inversion Hbase as [|v' rest' Hv _]; subst.
    exists (TableProcessor.self st1), v, rest, e.
    cbn [App.server_of App.table_detector App.server_arrays].
    repeat split; try assumption.
    rewrite Harrs, length_app, Hv. cbn [length]. lia.
Qed.
End ServerProperties.

(** * Recognition and the server on the example inputs *)

Open Scope string_scope.

(** X12 on an image with two lines of text. *)
Lemma extract_text_then_group_two_lines :
  exists self rows,
    OcrEngine.extract_text blind_on_one_rectangle [] = Returned self
    /\ group_text_into_rows self = Ok rows
    /\ Permutation (concat rows) ["B"; "A"].
Proof.
  destruct (proj1 (extract_text_then_group blind_on_one_rectangle [])
              two_lines [] eq_refl)
    as (self & Hself & _ & _ & _ & _ & _ & Hrows).
  destruct (Hrows ltac:(discriminate) eq_refl) as (rows & Hr & Hp).
  exists self, rows. repeat split; assumption.
Defined.

(** X13 on a page whose table is read. *)
Lemma response_numbers_tables_and_rows_page :
  200%nat = 200%nat
  /\ map App.table_no [App.mkTableData 1 [App.mkRowData 1 ["A"; "B"]]]
     = seq 1 (length [App.mkTableData 1 [App.mkRowData 1 ["A"; "B"]]])
  /\ Forall rows_numbered [App.mkTableData 1 [App.mkRowData 1 ["A"; "B"]]].
Proof.
  apply (@response_numbers_tables_and_rows drawing one_table add_rectangle
           whole_array blind_on_one_rectangle invisible_line
           (upload "page.png" [(0, 0, 1, 1)%Z]) new_server
           (snd (App.extract_text_from_image one_table add_rectangle
                   whole_array blind_on_one_rectangle invisible_line
                   (upload "page.png" [(0, 0, 1, 1)%Z]) new_server))).
  reflexivity.
Defined.

(** X14 on the same page. *)
Lemma response_counts_held_and_new_tables_page :
  exists detector detector' image_file ws,
    App.table_detector new_server = Some detector
    /\ App.request_image (upload "page.png" [(0, 0, 1, 1)%Z]) = Some image_file
    /\ mapM box_window (all_boxes (one_table (App.content image_file))) = Ok ws
    /\ length [App.mkTableData 1 [App.mkRowData 1 ["A"; "B"]]]
       = (length (TableProcessor.detected_tables detector)
          + length (all_boxes (one_table (App.content image_file))))%nat
    /\ App.table_detector
         (snd (App.extract_text_from_image one_table add_rectangle
                 whole_array blind_on_one_rectangle invisible_line
                 (upload "page.png" [(0, 0, 1, 1)%Z]) new_server))
       = Some detector'
    /\ TableProcessor.detected_tables detector' = [].
Proof.
  apply (@response_counts_held_and_new_tables drawing one_table add_rectangle
           whole_array blind_on_one_rectangle invisible_line
           (upload "page.png" [(0, 0, 1, 1)%Z]) new_server
           (snd (App.extract_text_from_image one_table add_rectangle
                   whole_array blind_on_one_rectangle invisible_line
                   (upload "page.png" [(0, 0, 1, 1)%Z]) new_server))
           [App.mkTableData 1 [App.mkRowData 1 ["A"; "B"]]] 200).
  reflexivity.
Defined.


(** X17 on the same page. *)
Lemma recognition_failure_poisons_blank_page :
  App.status
    (fst (App.extract_text_from_image one_table add_rectangle
            whole_array blind_on_one_rectangle invisible_line
            (upload "blank.png" []) new_server))
  = 500%nat
  /\ poisoned whole_array blind_on_one_rectangle
       (snd (App.extract_text_from_image one_table add_rectangle
               whole_array blind_on_one_rectangle invisible_line
               (upload "blank.png" []) new_server)).
Proof.
  destruct (@recognition_failure_poisons drawing one_table add_rectangle
              whole_array blind_on_one_rectangle invisible_line
              (upload "blank.png" []) new_server
              (TableProcessor.mkTableExtractor [] None)
              (App.mkFileStorage "blank.png" [])
              (TableProcessor.mkView 0 (1, 20)%Z (0, 10)%Z) []
              (snd (TableProcessor.execute one_table add_rectangle
                      "./images/blank.png"
                      (saved_upload new_server
                         (TableProcessor.mkTableExtractor [] None)
                         (App.mkFileStorage "blank.png" []))))
              TypeError eq_refl eq_refl eq_refl ltac:(discriminate)
              eq_refl eq_refl)
    as [Hresp Hpoisoned].
  rewrite Hresp. split; [reflexivity | exact Hpoisoned].
Defined.

(** X16 on the server that the blank page has poisoned: the page that a new
    server reads is now refused. *)
Lemma poisoned_server_stays_poisoned_after_blank_page :
  App.status
    (fst (App.extract_text_from_image one_table add_rectangle
            whole_array blind_on_one_rectangle invisible_line
            (upload "page.png" [(0, 0, 1, 1)%Z])
            (snd (App.extract_text_from_image one_table add_rectangle
                    whole_array blind_on_one_rectangle invisible_line
                    (upload "blank.png" []) new_server))))
  <> 200%nat
  /\ poisoned whole_array blind_on_one_rectangle
       (snd (App.extract_text_from_image one_table add_rectangle
               whole_array blind_on_one_rectangle invisible_line
               (upload "page.png" [(0, 0, 1, 1)%Z])
               (snd (App.extract_text_from_image one_table add_rectangle
                       whole_array blind_on_one_rectangle invisible_line
                       (upload "blank.png" []) new_server)))).
Proof.
  apply (@poisoned_server_stays_poisoned drawing one_table add_rectangle
           whole_array blind_on_one_rectangle invisible_line).
  exists (TableProcessor.mkTableExtractor
            [TableProcessor.mkView 0 (1, 20)%Z (0, 10)%Z] (Some 0%nat)),
         (TableProcessor.mkView 0 (1, 20)%Z (0, 10)%Z), [], TypeError.
  repeat split. vm_compute. lia.
Defined.

Close Scope string_scope.

(** * Further properties: the detector before an image is loaded *)

Section BeforeLoading.
Import TableProcessor.
Variable Image : Type.
Variable cv2_rectangle : Image -> Z * Z -> Z * Z -> Image.

Lemma annotate_box_unloaded (table_box : Box) (s : State Image) :
  source_image (self s) = None ->
  annotate_box cv2_rectangle table_box s
  = (match box_window table_box with
     | Ok _ => Raise AttributeError
     | Raise e => Raise e
     end, s).
Proof.
  destruct s as [f a [tables src]]. cbn [self source_image]. intros ->.
  unfold annotate_box, box_window, bindS, lift.
  destruct (py_index (xyxy table_box) 0) as [bbox_coords|e]; cbn [bind];
    [|reflexivity].
  destruct (unpack4_int bbox_coords)
    as [[[[x_min y_min] x_max] y_max]|e]; reflexivity.
Qed.
End BeforeLoading.

(** X19.  On an instance that has loaded no image, [annotate_image]
    changes nothing: it returns if there is no box, and otherwise raises at
    the first box, the error of its window if it has none (no first row, a
    coordinate without an integer, or not four coordinates) and
    [AttributeError] if it has one; [save_processed_image] raises
    [AttributeError] and writes no file. *)
Theorem detector_without_image
        (Image : Type) (cv2_rectangle : Image -> Z * Z -> Z * Z -> Image)
        (s : TableProcessor.State Image)
        (detections : list TableProcessor.Detection) (save_path : string) :
  TableProcessor.source_image (TableProcessor.self s) = None ->
  TableProcessor.annotate_image cv2_rectangle detections s
  = (match all_boxes detections with
     | [] => Ok tt
     | table_box :: _ =>
         match box_window table_box with
         | Ok _ => Raise AttributeError
         | Raise e => Raise e
         end
     end, s)
  /\ TableProcessor.save_processed_image save_path s
     = (Raise AttributeError, s).
Proof.
  intros Hsrc. split.
  - unfold TableProcessor.annotate_image. rewrite for_each_concat.
    fold (all_boxes detections).
    destruct (all_boxes detections) as [|table_box rest];
      cbn [TableProcessor.for_each]; [reflexivity|].
    unfold TableProcessor.bindS.
    rewrite (annotate_box_unloaded cv2_rectangle table_box s Hsrc).
    now destruct (box_window table_box).
  - unfold TableProcessor.save_processed_image, TableProcessor.bindS,
      TableProcessor.get_source_image.
    now rewrite Hsrc.
Qed.

(** X19 on a new detector, for a box with a window and for a box with an
    infinite coordinate. *)
Lemma detector_without_image_new :
  TableProcessor.annotate_image add_rectangle (one_table []) fresh_detector
  = (Raise AttributeError, fresh_detector)
  /\ TableProcessor.annotate_image add_rectangle (one_infinite_table [])
       fresh_detector
     = (Raise OverflowError, fresh_detector)
  /\ TableProcessor.save_processed_image "processed_output.png" fresh_detector
     = (Raise AttributeError, fresh_detector).
Proof.
  split; [|split].
  - apply (@detector_without_image drawing add_rectangle fresh_detector
             (one_table []) "processed_output.png").
    reflexivity.
  - apply (@detector_without_image drawing add_rectangle fresh_detector
             (one_infinite_table []) "processed_output.png").
    reflexivity.
  - apply (@detector_without_image drawing add_rectangle fresh_detector
             (one_table []) "processed_output.png").
    reflexivity.
Defined.
